(** * Vincenty's inverse formula (package [vincenty]): model and properties

    The Go package computes the geodesic distance between two points of the
    WGS-84 ellipsoid.  All of its arithmetic is on [float64]; the model below
    keeps it on Rocq's primitive binary64 floats, so that every operation of
    the source ([+], [-], [*], [/], [==], [!=], [<], [math.Sqrt], [math.Abs])
    is the IEEE-754 operation the Go code performs, with the same
    association and the same literals, each operation rounded on its own (as
    on amd64, where the compiler does not fuse a multiplication with an
    addition).

    The transcendental functions of Go's [math] package are not part of the
    repository.  They are an interface ([MathLib]); theorems quantify over
    every implementation of that interface, and a reference instance
    ([RefMath.lib]) is used to run the model on concrete points.

    Of the test file, [verifyInverse] and the checking loop of [TestSpeed]
    are modelled as functions of the scenario and of the parsed rows; reading
    and parsing [testdata.csv] is input and is not. *)

From Stdlib Require Import ZArith Floats List Bool Lia.
Import ListNotations.

#[local] Set Warnings "-inexact-float".
#[local] Open Scope float_scope.

(** ** Data model *)

(** [type Distance float64] *)
Definition Distance : Type := float.

(** [type LatLng struct { Latitude float64; Longitude float64 }] *)
Record LatLng : Type := mkLatLng {
  Latitude : float;
  Longitude : float
}.

(** Go's [x != y] on [float64]. *)
Definition neqb (x y : float) : bool := negb (x =? y).

(** ** The functions of Go's [math] package used by the solver

    [NaN] handling is the one the package documents ([Sin(NaN) = NaN],
    [Cos(NaN) = NaN], [Tan(NaN) = NaN]) and implements ([Atan], [Atan2]). *)
Record MathLib : Type := mkMathLib {
  Sin : float -> float;
  Cos : float -> float;
  Tan : float -> float;
  Atan : float -> float;
  Atan2 : float -> float -> float;
  Sin_nan : Sin nan = nan;
  Cos_nan : Cos nan = nan;
  Tan_nan : Tan nan = nan;
  Atan_nan : Atan nan = nan
}.

(** [math.Pi], as a [float64]. *)
Definition Pi : float :=
  3.14159265358979323846264338327950288419716939937510582097494459.

(** [math.Sqrt] and [math.Abs] are the IEEE-754 operations. *)
Definition Sqrt (x : float) : float := PrimFloat.sqrt x.
Definition Abs (x : float) : float := PrimFloat.abs x.

(** [math.Round]: nearest integer, halves away from zero; [±0], [±Inf] and
    [NaN] are returned unchanged, and so is every float whose exponent leaves
    no fractional bit. *)
Definition Round (x : float) : float :=
  match Prim2SF x with
  | S754_finite s m e =>
      if (0 <=? e)%Z then x
      else
        let q := Z.shiftl (Z.pos m) e in
        let half := Z.testbit (Z.pos m) (- e - 1) in
        let n := of_uint63 (Uint63.of_Z (if half then q + 1 else q)) in
        if s then - n else n
  | _ => x
  end.

(** ** Unit accessors of [Distance] *)

Definition Metres (d : Distance) : float := d.
Definition Meters (d : Distance) : float := d.
Definition Kilometres (d : Distance) : float := d / 1000.0.
Definition Kilometers (d : Distance) : float := d / 1000.0.
Definition NauticalMiles (d : Distance) : float := d / 1852.0.
Definition Miles (d : Distance) : float := d / 1609.344.
Definition Feet (d : Distance) : float := d / 0.3048.

(** ** The solver *)

Definition radians (degrees : float) : float := degrees * Pi / 180.0.

Definition square (f : float) : float := f * f.

(** WGS 84.  [f := 1.0 / 298.257223563] is a constant expression in Go: it is
    evaluated exactly and rounded once to [float64], which gives
    [0x1.b775a84f3e129p-9] (the quotient of the two [float64] operands would
    be one unit in the last place below). *)
Definition a : float := 6378137.0.
Definition f : float := 0x1.b775a84f3e129p-9.
Definition b : float := 6356752.314245.

Definition MaxIterations : nat := 200.
Definition ConvergenceThreshold : float := 1e-12.

(** What one execution of the loop body does: it returns from [Inverse], or
    it falls through to the next iteration with a new [Lambda]. *)
Inductive iter_result : Type :=
| Return (d : Distance)
| Next (Lambda : float).

Section Solver.

Context (M : MathLib).

(** The body of the [for] loop (lines 97-123). *)
Definition iteration (sinU1 cosU1 sinU2 cosU2 L Lambda : float) : iter_result :=
  let sinLambda := Sin M Lambda in
  let cosLambda := Cos M Lambda in
  let sinSigma :=
    Sqrt (square (cosU2 * sinLambda)
          + square (cosU1 * sinU2 - sinU1 * cosU2 * cosLambda)) in
  if sinSigma =? 0.0 then Return 0.0
  else
    let cosSigma := sinU1 * sinU2 + cosU1 * cosU2 * cosLambda in
    let sigma := Atan2 M sinSigma cosSigma in
    let sinAlpha := cosU1 * cosU2 * sinLambda / sinSigma in
    let cosSqAlpha := 1.0 - square sinAlpha in
    let cos2SigmaM :=
      if neqb cosSqAlpha 0
      then cosSigma - 2.0 * sinU1 * sinU2 / cosSqAlpha
      else 0.0 in
    let C := f / 16.0 * cosSqAlpha * (4.0 + f * (4.0 - 3.0 * cosSqAlpha)) in
    let LambdaPrev := Lambda in
    let Lambda :=
      L + (1.0 - C) * f * sinAlpha
          * (sigma
             + C * sinSigma
               * (cos2SigmaM
                  + C * cosSigma * (-1.0 + 2.0 * square cos2SigmaM))) in
    if Abs (Lambda - LambdaPrev) <? ConvergenceThreshold then
      let uSq := cosSqAlpha * (square a - square b) / square b in
      let A := 1.0 + uSq / 16384.0
                     * (4096.0 + uSq * (-768.0 + uSq * (320.0 - 175.0 * uSq))) in
      let B := uSq / 1024.0
               * (256.0 + uSq * (-128.0 + uSq * (74.0 - 47.0 * uSq))) in
      let deltaSigma :=
        B * sinSigma
        * (cos2SigmaM
           + B / 4.0
             * (cosSigma * (-1.0 + 2.0 * square cos2SigmaM)
                - B / 6.0 * cos2SigmaM * (-3.0 + 4.0 * square sinSigma)
                  * (-3.0 + 4.0 * square cos2SigmaM))) in
      let s := b * A * (sigma - deltaSigma) in
      let s := Round (s * 1000) / 1000 in
      Return s
    else Next Lambda.

(** [for i := 0; i < MaxIterations; i++ { ... }; return Distance(-1.0)],
    by recursion on the number [MaxIterations - i] of iterations left. *)
Fixpoint loop (sinU1 cosU1 sinU2 cosU2 L : float) (left : nat) (Lambda : float)
  : Distance :=
  match left with
  | O => -1.0
  | S left' =>
      match iteration sinU1 cosU1 sinU2 cosU2 L Lambda with
      | Return d => d
      | Next Lambda' => loop sinU1 cosU1 sinU2 cosU2 L left' Lambda'
      end
  end.

(** The guard of line 82. *)
Definition coincident (point1 point2 : LatLng) : bool :=
  (Latitude point1 =? Latitude point2)
  && (Longitude point1 =? Longitude point2).

Definition U_of (point : LatLng) : float :=
  Atan M ((1.0 - f) * Tan M (radians (Latitude point))).

Definition L_of (point1 point2 : LatLng) : float :=
  radians (Longitude point2 - Longitude point1).

Definition Inverse (point1 point2 : LatLng) : Distance :=
  if coincident point1 point2 then 0.0
  else
    let U1 := U_of point1 in
    let U2 := U_of point2 in
    let L := L_of point1 point2 in
    let Lambda := L in
    let sinU1 := Sin M U1 in
    let cosU1 := Cos M U1 in
    let sinU2 := Sin M U2 in
    let cosU2 := Cos M U2 in
    loop sinU1 cosU1 sinU2 cosU2 L MaxIterations Lambda.

End Solver.

(** ** The [for] statement, step by step

    The loop of lines 96-125 as a machine over the counter [i] and [Lambda]:
    a step tests [i < MaxIterations], runs the body once and increments [i],
    or leaves the loop for the [return Distance(-1.0)] of line 125.  [Done i d]
    records the value of the counter at the [return]. *)
Inductive machine : Type :=
| Running (i : Z) (Lambda : float)
| Done (i : Z) (d : Distance).

Section Machine.

Context (M : MathLib).

Definition for_step (sinU1 cosU1 sinU2 cosU2 L : float) (i : Z) (Lambda : float)
  : machine :=
  if (i <? Z.of_nat MaxIterations)%Z then
    match iteration M sinU1 cosU1 sinU2 cosU2 L Lambda with
    | Return d => Done i d
    | Next Lambda' => Running (i + 1) Lambda'
    end
  else Done i (-1.0).

Fixpoint run (sinU1 cosU1 sinU2 cosU2 L : float) (fuel : nat) (m : machine)
  : machine :=
  match fuel, m with
  | S fuel', Running i Lambda =>
      run sinU1 cosU1 sinU2 cosU2 L fuel'
          (for_step sinU1 cosU1 sinU2 cosU2 L i Lambda)
  | _, _ => m
  end.

(** [Inverse] on the machine: the counter at the [return] and the value
    returned, or [None] when [fuel] steps were not enough. *)
Definition Inverse_run (fuel : nat) (point1 point2 : LatLng)
  : option (Z * Distance) :=
  if coincident point1 point2 then Some (0%Z, 0.0)
  else
    let U1 := U_of M point1 in
    let U2 := U_of M point2 in
    let L := L_of point1 point2 in
    match run (Sin M U1) (Cos M U1) (Sin M U2) (Cos M U2) L fuel (Running 0 L) with
    | Done i d => Some (i, d)
    | Running _ _ => None
    end.

(** [n] consecutive executions of the body, starting from [Lambda], none of
    which returns. *)
Inductive falls_through (sinU1 cosU1 sinU2 cosU2 L : float)
  : nat -> float -> Prop :=
| falls_O : forall Lambda, falls_through sinU1 cosU1 sinU2 cosU2 L O Lambda
| falls_S : forall n Lambda Lambda',
    iteration M sinU1 cosU1 sinU2 cosU2 L Lambda = Next Lambda' ->
    falls_through sinU1 cosU1 sinU2 cosU2 L n Lambda' ->
    falls_through sinU1 cosU1 sinU2 cosU2 L (S n) Lambda.

Fixpoint falls_throughb (sinU1 cosU1 sinU2 cosU2 L : float) (n : nat)
    (Lambda : float) : bool :=
  match n with
  | O => true
  | S n' =>
      match iteration M sinU1 cosU1 sinU2 cosU2 L Lambda with
      | Return _ => false
      | Next Lambda' => falls_throughb sinU1 cosU1 sinU2 cosU2 L n' Lambda'
      end
  end.

(** The loop of [Inverse point1 point2] runs all its iterations without
    returning: neither [sinSigma == 0] nor the convergence test succeeds. *)
Definition never_converges (point1 point2 : LatLng) : Prop :=
  let U1 := U_of M point1 in
  let U2 := U_of M point2 in
  let L := L_of point1 point2 in
  falls_through (Sin M U1) (Cos M U1) (Sin M U2) (Cos M U2) L MaxIterations L.

Definition never_convergesb (point1 point2 : LatLng) : bool :=
  let U1 := U_of M point1 in
  let U2 := U_of M point2 in
  let L := L_of point1 point2 in
  falls_throughb (Sin M U1) (Cos M U1) (Sin M U2) (Cos M U2) L MaxIterations L.

End Machine.

(** [sinSigma] as line 99 computes it. *)
Definition sinSigma_of (M : MathLib) (sinU1 cosU1 sinU2 cosU2 Lambda : float)
  : float :=
  Sqrt (square (cosU2 * Sin M Lambda)
        + square (cosU1 * sinU2 - sinU1 * cosU2 * Cos M Lambda)).

(** ** The arc length before rounding (lines 116-120) *)

Definition arc_length (sinSigma cosSigma sigma cosSqAlpha cos2SigmaM : float)
  : float :=
  let uSq := cosSqAlpha * (square a - square b) / square b in
  let A := 1.0 + uSq / 16384.0
                 * (4096.0 + uSq * (-768.0 + uSq * (320.0 - 175.0 * uSq))) in
  let B := uSq / 1024.0
           * (256.0 + uSq * (-128.0 + uSq * (74.0 - 47.0 * uSq))) in
  let deltaSigma :=
    B * sinSigma
    * (cos2SigmaM
       + B / 4.0
         * (cosSigma * (-1.0 + 2.0 * square cos2SigmaM)
            - B / 6.0 * cos2SigmaM * (-3.0 + 4.0 * square sinSigma)
              * (-3.0 + 4.0 * square cos2SigmaM))) in
  b * A * (sigma - deltaSigma).

(** NaN and the two infinities. *)
Definition not_finite (x : float) : Prop :=
  x = nan \/ x = infinity \/ x = neg_infinity.

(** [float64(n)] for an integer [n]. *)
Definition of_Z (n : Z) : float := of_uint63 (Uint63.of_Z n).

(** Floats whose value is a whole number: the conversion of an integer of
    magnitude at most [2^53], or a finite float whose exponent leaves no
    fractional bit. *)
Inductive whole : float -> Prop :=
| whole_pos : forall n, (0 <= n <= 2 ^ 53)%Z -> whole (of_Z n)
| whole_neg : forall n, (0 <= n <= 2 ^ 53)%Z -> whole (- of_Z n)
| whole_big : forall x s m e,
    Prim2SF x = S754_finite s m e -> (0 <= e)%Z -> whole x.

(** A distance rounded to the millimetre as line 121 does: [k / 1000], with
    [k] the rounding of [s * 1000], a whole number unless [s * 1000] is NaN
    or infinite. *)
Definition millimetres (s : float) (d : Distance) : Prop :=
  d = Round (s * 1000) / 1000
  /\ (whole (Round (s * 1000)) \/ not_finite (s * 1000)).

(** What the values returned from inside the loop look like. *)
Definition loop_value (d : Distance) : Prop :=
  d = 0.0
  \/ exists sinSigma cosSigma sigma cosSqAlpha cos2SigmaM,
       millimetres
         (arc_length sinSigma cosSigma sigma cosSqAlpha cos2SigmaM) d.


(** ** Divisions, with their divisors recorded

    The loop again, every [/] of lines 97-123 logging its divisor. *)
Definition Logged (A : Type) : Type := (A * list float)%type.

Definition ret {A : Type} (x : A) : Logged A := (x, []).

Definition bind {A B : Type} (m : Logged A) (k : A -> Logged B) : Logged B :=
  let '(x, l) := m in
  let '(y, l') := k x in
  (y, l ++ l').

Definition fdiv (x y : float) : Logged float := (x / y, [y]).

(** A divisor that Go's [== 0] rejects (NaN included). *)
Definition nonzero (d : float) : Prop := (d =? 0) = false.

Declare Scope logged_scope.
Delimit Scope logged_scope with logged.
Notation "x <- m ;; k" := (bind m (fun x => k))
  (at level 61, m at next level, right associativity) : logged_scope.
Notation "x /! y" := (fdiv x y) (at level 40, left associativity) : logged_scope.

Section Divisions.

Context (M : MathLib).

#[local] Open Scope logged_scope.

Definition iteration_log (sinU1 cosU1 sinU2 cosU2 L Lambda : float)
  : Logged iter_result :=
  let sinLambda := Sin M Lambda in
  let cosLambda := Cos M Lambda in
  let sinSigma :=
    Sqrt (square (cosU2 * sinLambda)
          + square (cosU1 * sinU2 - sinU1 * cosU2 * cosLambda)) in
  if sinSigma =? 0.0 then ret (Return 0.0)
  else
    let cosSigma := sinU1 * sinU2 + cosU1 * cosU2 * cosLambda in
    let sigma := Atan2 M sinSigma cosSigma in
    sinAlpha <- cosU1 * cosU2 * sinLambda /! sinSigma ;;
    let cosSqAlpha := 1.0 - square sinAlpha in
    cos2SigmaM <-
      (if neqb cosSqAlpha 0
       then q <- 2.0 * sinU1 * sinU2 /! cosSqAlpha ;; ret (cosSigma - q)
       else ret 0.0) ;;
    f16 <- f /! 16.0 ;;
    let C := f16 * cosSqAlpha * (4.0 + f * (4.0 - 3.0 * cosSqAlpha)) in
    let LambdaPrev := Lambda in
    let Lambda :=
      L + (1.0 - C) * f * sinAlpha
          * (sigma
             + C * sinSigma
               * (cos2SigmaM
                  + C * cosSigma * (-1.0 + 2.0 * square cos2SigmaM))) in
    if Abs (Lambda - LambdaPrev) <? ConvergenceThreshold then
      uSq <- cosSqAlpha * (square a - square b) /! square b ;;
      u1 <- uSq /! 16384.0 ;;
      let A := 1.0 + u1
                     * (4096.0 + uSq * (-768.0 + uSq * (320.0 - 175.0 * uSq))) in
      u2 <- uSq /! 1024.0 ;;
      let B := u2 * (256.0 + uSq * (-128.0 + uSq * (74.0 - 47.0 * uSq))) in
      B4 <- B /! 4.0 ;;
      B6 <- B /! 6.0 ;;
      let deltaSigma :=
        B * sinSigma
        * (cos2SigmaM
           + B4
             * (cosSigma * (-1.0 + 2.0 * square cos2SigmaM)
                - B6 * cos2SigmaM * (-3.0 + 4.0 * square sinSigma)
                  * (-3.0 + 4.0 * square cos2SigmaM))) in
      let s := b * A * (sigma - deltaSigma) in
      s <- Round (s * 1000) /! 1000 ;;
      ret (Return s)
    else ret (Next Lambda).

Fixpoint loop_log (sinU1 cosU1 sinU2 cosU2 L : float) (left : nat)
    (Lambda : float) : Logged Distance :=
  match left with
  | O => ret (-1.0)
  | S left' =>
      r <- iteration_log sinU1 cosU1 sinU2 cosU2 L Lambda ;;
      match r with
      | Return d => ret d
      | Next Lambda' => loop_log sinU1 cosU1 sinU2 cosU2 L left' Lambda'
      end
  end.

End Divisions.

(** ** Swapping the two points

    [y] is [x] with its sign flipped, or the two are the same zero: how
    [L], [Lambda] and [sinAlpha] of [Inverse point2 point1] relate to those
    of [Inverse point1 point2]. *)
Definition mirrored (x y : float) : Prop :=
  y = - x \/ (y = x /\ is_zero x = true).

(** What the symmetry needs of the math package: [Sin] is odd and maps zero
    to zero, [Cos] is even (Go documents [Sin(±0) = ±0]; its [Sin] works on
    [-x] with the sign set aside, its [Cos] on [Abs(x)]). *)
Definition sign_symmetric (M : MathLib) : Prop :=
  (forall x, Sin M (- x) = - Sin M x)
  /\ Sin M 0 = 0
  /\ (forall x, Cos M (- x) = Cos M x).

(** ** A reference implementation of [MathLib]

    The routines follow the Cephes-derived algorithms of Go's [math] package
    ([sin.go], [tan.go], [atan.go], [atan2.go]): Cody-Waite reduction by
    [Pi/4] in three parts, then the minimax polynomials.  Arguments of
    magnitude [2^29] and above, for which Go switches to Payne-Hanek
    reduction, are outside its domain and yield [NaN]. *)
Module RefMath.

Definition PI4A : float := 7.85398125648498535156e-1.
Definition PI4B : float := 3.77489470793079817668e-8.
Definition PI4C : float := 2.69515142907905952645e-15.

(** [uint64(x)] for a finite float: its integer part ([None] for NaN and the
    infinities). *)
Definition float_to_Z_trunc (x : float) : option Z :=
  match Prim2SF x with
  | S754_zero _ => Some 0%Z
  | S754_finite s m e =>
      let v := Z.shiftl (Z.pos m) e in
      Some (if s then Z.opp v else v)
  | _ => None
  end.

(** [4 / Pi], a constant expression rounded once. *)
Definition M4PI : float := 0x1.45f306dc9c883p+0.

Definition reduceThreshold : float := 536870912.0.

Definition sin_poly (zz : float) : float :=
  ((((((1.58962301576546568060e-10 * zz)
       + -2.50507477628578072866e-8) * zz
      + 2.75573136213857245213e-6) * zz
     + -1.98412698295895385996e-4) * zz
    + 8.33333333332211858878e-3) * zz
   + -1.66666666666666307295e-1).

Definition cos_poly (zz : float) : float :=
  ((((((-1.13585365213876817300e-11 * zz)
       + 2.08757008419747316778e-9) * zz
      + -2.75573141792967388112e-7) * zz
     + 2.48015872888517045348e-5) * zz
    + -1.38888888888730564116e-3) * zz
   + 4.16666666666665929218e-2).

(** [j = uint64(x * (4 / Pi))], made even, and the reduced argument. *)
Definition reduce (x : float) : Z * float :=
  let j := match float_to_Z_trunc (x * M4PI) with Some j => j | None => 0%Z end in
  let j := if Z.odd j then (j + 1)%Z else j in
  let y := of_uint63 (Uint63.of_Z j) in
  (j, ((x - y * PI4A) - y * PI4B) - y * PI4C).

Definition sin (x : float) : float :=
  if (x =? 0) || is_nan x then x
  else if is_infinity x then nan
  else
    let sign := x <? 0 in
    let x := if sign then - x else x in
    if reduceThreshold <=? x then nan
    else
      let '(j, z) := reduce x in
      let j := Z.land j 7 in
      let sign := if (3 <? j)%Z then negb sign else sign in
      let j := if (3 <? j)%Z then (j - 4)%Z else j in
      let zz := z * z in
      let y :=
        if (j =? 1)%Z || (j =? 2)%Z
        then 1.0 - 0.5 * zz + zz * zz * cos_poly zz
        else z + z * zz * sin_poly zz in
      if sign then - y else y.

Definition cos (x : float) : float :=
  if is_nan x || is_infinity x then nan
  else
    let sign := false in
    let x := abs x in
    if reduceThreshold <=? x then nan
    else
      let '(j, z) := reduce x in
      let j := Z.land j 7 in
      let sign := if (3 <? j)%Z then negb sign else sign in
      let j := if (3 <? j)%Z then (j - 4)%Z else j in
      let sign := if (1 <? j)%Z then negb sign else sign in
      let zz := z * z in
      let y :=
        if (j =? 1)%Z || (j =? 2)%Z
        then z + z * zz * sin_poly zz
        else 1.0 - 0.5 * zz + zz * zz * cos_poly zz in
      if sign then - y else y.

Definition tan (x : float) : float :=
  if (x =? 0) || is_nan x then x
  else if is_infinity x then nan
  else
    let sign := x <? 0 in
    let x := if sign then - x else x in
    if reduceThreshold <=? x then nan
    else
      let '(j, z) := reduce x in
      let zz := z * z in
      let y :=
        if 1e-14 <? zz
        then z + z * (zz * (((-1.30936939181383777646e4 * zz)
                             + 1.15351664838587416140e6) * zz
                            + -1.79565251976484877988e7)
                      / ((((zz + 1.36812963470692954678e4) * zz
                           + -1.32089234440210967447e6) * zz
                          + 2.50083801823357915839e7) * zz
                         + -5.38695755929454629881e7))
        else z in
      let y := if Z.testbit j 1 then -1 / y else y in
      if sign then - y else y.

(** Series valid on [[0, 0.66]]. *)
Definition xatan (x : float) : float :=
  let z := x * x in
  let z :=
    z * ((((-8.750608600031904122785e-01 * z
            + -1.615753718733365076637e+01) * z
           + -7.500855792314704667340e+01) * z
          + -1.228866684490136173410e+02) * z
         + -6.485021904942025371773e+01)
    / (((((z + 2.485846490142306297962e+01) * z
          + 1.650270098316988542046e+02) * z
         + 4.328810604912902668951e+02) * z
        + 4.853903996359136964868e+02) * z
       + 1.945506571482613964425e+02) in
  x * z + x.

Definition Morebits : float := 6.123233995736765886130e-17.
Definition HalfMorebits : float := 3.0616169978683829430650e-17.
Definition Tan3pio8 : float := 2.41421356237309504880.
Definition PiO2 : float := 0x1.921fb54442d18p+0.
Definition PiO4 : float := 0x1.921fb54442d18p-1.

(** Reduction of a positive argument to [[0, 0.66]]. *)
Definition satan (x : float) : float :=
  if x <=? 0.66 then xatan x
  else if Tan3pio8 <? x then PiO2 - xatan (1 / x) + Morebits
  else PiO4 + xatan ((x - 1) / (x + 1)) + HalfMorebits.

Definition atan (x : float) : float :=
  if x =? 0 then x
  else if 0 <? x then satan x
  else - satan (- x).

Definition signbit (x : float) : bool := get_sign x.

Definition copysign (x y : float) : float :=
  if Bool.eqb (signbit x) (signbit y) then x else - x.

Definition atan2 (y x : float) : float :=
  if is_nan x || is_nan y then nan
  else if y =? 0 then
    if (0 <=? x) && negb (signbit x) then copysign 0 y else copysign Pi y
  else if x =? 0 then copysign PiO2 y
  else if is_infinity x then
    if x =? infinity then
      if is_infinity y then copysign PiO4 y else copysign 0 y
    else
      if is_infinity y then copysign (3 * Pi / 4) y else copysign Pi y
  else if is_infinity y then copysign PiO2 y
  else
    let q := atan (y / x) in
    if x <? 0 then (if q <=? 0 then q + Pi else q - Pi) else q.

Definition lib : MathLib.
Proof.
  refine (mkMathLib sin cos tan atan atan2 _ _ _ _); reflexivity.
Defined.

End RefMath.


(** ** Points used in the examples *)

Definition pt (lat lon : float) : LatLng := mkLatLng lat lon.

Definition Boston : LatLng := pt 42.3541165 (-71.0693514).
Definition NewYork : LatLng := pt 40.7791472 (-73.9680804).

(** ** Further behaviour of the math package

    What the reflections of the two points across the equator need: [Tan]
    and [Atan] are odd (Go's work on [-x] for a negative [x] and negate the
    result, and return [±0] for [±0]). *)
Definition odd_Tan_Atan (M : MathLib) : Prop :=
  (forall x, Tan M (- x) = - Tan M x)
  /\ (forall x, Atan M (- x) = - Atan M x).

(** Go documents [Sin(±Inf) = NaN] and [Tan(±Inf) = NaN]. *)
Definition infinite_to_nan (M : MathLib) : Prop :=
  Sin M infinity = nan /\ Sin M neg_infinity = nan
  /\ Tan M infinity = nan /\ Tan M neg_infinity = nan.

(** The argument of [math.Sqrt] on line 99. *)
Definition radicand (M : MathLib) (sinU1 cosU1 sinU2 cosU2 Lambda : float)
  : float :=
  square (cosU2 * Sin M Lambda)
  + square (cosU1 * sinU2 - sinU1 * cosU2 * Cos M Lambda).

(** The machine of the loop of [Inverse point1 point2] after [steps] steps. *)
Definition loop_state (M : MathLib) (steps : nat) (point1 point2 : LatLng)
  : machine :=
  let U1 := U_of M point1 in
  let U2 := U_of M point2 in
  let L := L_of point1 point2 in
  run M (Sin M U1) (Cos M U1) (Sin M U2) (Cos M U2) L steps (Running 0 L).

(** ** Signs of binary64 values

    [r] carries the sign [s], or is NaN. *)
Definition SFsigned (s : bool) (r : spec_float) : Prop :=
  match r with
  | S754_nan => True
  | S754_zero s' | S754_infinity s' | S754_finite s' _ _ => s' = s
  end.

(** Zero, positive or NaN. *)
Definition SFnonneg (r : spec_float) : Prop :=
  match r with
  | S754_nan | S754_zero _ => True
  | S754_infinity s | S754_finite s _ _ => s = false
  end.

(** Zero, negative or NaN. *)
Definition SFnonpos (r : spec_float) : Prop :=
  match r with
  | S754_nan | S754_zero _ => True
  | S754_infinity s | S754_finite s _ _ => s = true
  end.

(** Neither NaN nor an infinity. *)
Definition SFfinite (r : spec_float) : Prop :=
  match r with
  | S754_zero _ | S754_finite _ _ _ => True
  | _ => False
  end.

Definition finite (x : float) : Prop := SFfinite (Prim2SF x).

(** Zero of either sign, or NaN. *)
Definition zero_or_nan (v : float) : Prop := is_zero v = true \/ v = nan.

(** ** The tests (vincenty_test.go)

    [verifyInverse]: the arguments of its call of [t.Errorf], if it makes
    one. *)
Definition verifyInverse (M : MathLib) (p1 p2 : LatLng)
    (expectedResult : float) : option (float * float) :=
  let dist := Inverse M p1 p2 in
  if neqb (Metres dist) expectedResult
  then Some (Metres dist, expectedResult)
  else None.

(** [TestSpeed].  The rows of [testdata.csv], once read and parsed (lines
    76-100, which are input and not modelled), are a [[][]float64].  The body of
    the loop of lines 102-107 on one row: [data[i]] panics when the row has
    no field [i]; otherwise the row is reported with [t.Errorf] when the
    distance computed exceeds the expected one by more than 0.0011. *)
Inductive row_outcome : Type :=
| Passed
| Errorf (got expected : float)
| Panic.

Definition TestSpeed_row (M : MathLib) (data : list float) : row_outcome :=
  match nth_error data 0, nth_error data 1,
        nth_error data 2, nth_error data 3 with
  | Some d0, Some d1, Some d2, Some d3 =>
      let dist := Inverse M (mkLatLng d0 d1) (mkLatLng d2 d3) in
      match nth_error data 4 with
      | Some d4 =>
          if 0.0011 <? Metres dist - d4 then Errorf (Metres dist) d4 else Passed
      | None => Panic
      end
  | _, _, _, _ => Panic
  end.

(** [for _, data := range(testData) { ... }]: the calls of [t.Errorf], in
    order, and whether the loop ended in a panic. *)
Fixpoint TestSpeed_rows (M : MathLib) (testData : list (list float))
  : list (float * float) * bool :=
  match testData with
  | [] => ([], false)
  | data :: rest =>
      match TestSpeed_row M data with
      | Passed => TestSpeed_rows M rest
      | Errorf got expected =>
          let '(errors, panicked) := TestSpeed_rows M rest in
          ((got, expected) :: errors, panicked)
      | Panic => ([], true)
      end
  end.

(** A row of at least five fields on which [Inverse] is at or below the
    expected distance. *)
Definition not_above (M : MathLib) (data : list float) : Prop :=
  exists d0 d1 d2 d3 d4 rest,
    data = d0 :: d1 :: d2 :: d3 :: d4 :: rest
    /\ (Inverse M (mkLatLng d0 d1) (mkLatLng d2 d3) <=? d4) = true.

(** * Properties *)

(** ** NaN in binary64 arithmetic *)

Lemma is_nan_eq (x : float) : is_nan x = true -> x = nan.
Proof.
  unfold is_nan. rewrite FloatAxioms.eqb_spec. intros H.
  apply Prim2SF_inj. change (Prim2SF nan) with S754_nan.
  destruct (Prim2SF x) as [s | s | | s m e]; try reflexivity; simpl in H.
  - discriminate.
  - destruct s; discriminate.
  - unfold SFeqb, SFcompare in H.
    destruct s; rewrite Z.compare_refl, Pos.compare_cont_refl in H;
      discriminate.
Qed.

Lemma eqb_refl (x : float) : is_nan x = false -> (x =? x) = true.
Proof.
  unfold is_nan. intros H. apply negb_false_iff in H. exact H.
Qed.

Lemma eqb_nan_l (y : float) : (nan =? y) = false.
Proof. rewrite FloatAxioms.eqb_spec. reflexivity. Qed.

Lemma eqb_nan_r (x : float) : (x =? nan) = false.
Proof.
  rewrite FloatAxioms.eqb_spec. change (Prim2SF nan) with S754_nan.
  unfold SFeqb, SFcompare. destruct (Prim2SF x); reflexivity.
Qed.

Lemma mul_nan_l (y : float) : nan * y = nan.
Proof. apply Prim2SF_inj. rewrite mul_spec. reflexivity. Qed.

Lemma mul_nan_r (x : float) : x * nan = nan.
Proof.
  apply Prim2SF_inj. rewrite mul_spec. change (Prim2SF nan) with S754_nan.
  unfold SF64mul, SFmul. destruct (Prim2SF x); reflexivity.
Qed.

Lemma add_nan_l (y : float) : nan + y = nan.
Proof. apply Prim2SF_inj. rewrite add_spec. reflexivity. Qed.

Lemma add_nan_r (x : float) : x + nan = nan.
Proof.
  apply Prim2SF_inj. rewrite add_spec. change (Prim2SF nan) with S754_nan.
  unfold SF64add, SFadd. destruct (Prim2SF x); reflexivity.
Qed.

Lemma sub_nan_l (y : float) : nan - y = nan.
Proof. apply Prim2SF_inj. rewrite sub_spec. reflexivity. Qed.

Lemma sub_nan_r (x : float) : x - nan = nan.
Proof.
  apply Prim2SF_inj. rewrite sub_spec. change (Prim2SF nan) with S754_nan.
  unfold SF64sub, SFsub. destruct (Prim2SF x); reflexivity.
Qed.

Lemma div_nan_l (y : float) : nan / y = nan.
Proof. apply Prim2SF_inj. rewrite div_spec. reflexivity. Qed.

Lemma div_nan_r (x : float) : x / nan = nan.
Proof.
  apply Prim2SF_inj. rewrite div_spec. change (Prim2SF nan) with S754_nan.
  unfold SF64div, SFdiv. destruct (Prim2SF x); reflexivity.
Qed.

Lemma square_nan : square nan = nan.
Proof. reflexivity. Qed.

Lemma Sqrt_nan : Sqrt nan = nan.
Proof. reflexivity. Qed.

Lemma radians_nan : radians nan = nan.
Proof. unfold radians. rewrite mul_nan_l, div_nan_l. reflexivity. Qed.

Create Rewrite HintDb nan_db.
#[global] Hint Rewrite mul_nan_l mul_nan_r add_nan_l add_nan_r sub_nan_l
  sub_nan_r div_nan_l div_nan_r square_nan Sqrt_nan radians_nan
  Sin_nan Cos_nan Tan_nan Atan_nan : nan_db.

Ltac nan_simpl := autorewrite with nan_db.

(** ** Unit accessors *)

(** C6. For every [Distance], the sentinel included, [Metres] is the
    identity, the other accessors are the quotient of [Metres] by 1000, 1852,
    1609.344 and 0.3048, and the US spellings return what the UK ones do. *)
Theorem Distance_units (d : Distance) :
  Metres d = d
  /\ Kilometres d = Metres d / 1000
  /\ NauticalMiles d = Metres d / 1852
  /\ Miles d = Metres d / 1609.344
  /\ Feet d = Metres d / 0.3048
  /\ Meters d = Metres d
  /\ Kilometers d = Kilometres d.
Proof. repeat split. Qed.

Example sentinel_units :
  Metres (-1.0) = -1.0 /\ Kilometres (-1.0) = -0.001
  /\ Feet (-1.0) = -1.0 / 0.3048.
Proof. repeat split. Qed.

(** ** The loop *)

Section LoopFacts.

Context (M : MathLib).
Variables sinU1 cosU1 sinU2 cosU2 L : float.

#[local] Abbreviation loop' := (loop M sinU1 cosU1 sinU2 cosU2 L).
#[local] Abbreviation run' := (run M sinU1 cosU1 sinU2 cosU2 L).
#[local] Abbreviation falls := (falls_through M sinU1 cosU1 sinU2 cosU2 L).

Lemma loop_falls_through (n : nat) (Lambda : float) :
  falls n Lambda -> loop' n Lambda = -1.0.
Proof.
  induction 1 as [Lambda | n Lambda Lambda' Hit _ IH]; simpl.
  - reflexivity.
  - rewrite Hit. exact IH.
Qed.

Lemma falls_throughb_sound (n : nat) :
  forall Lambda,
    falls_throughb M sinU1 cosU1 sinU2 cosU2 L n Lambda = true ->
    falls n Lambda.
Proof.
  induction n as [| n IH]; intros Lambda H.
  - constructor.
  - simpl in H.
    destruct (iteration M sinU1 cosU1 sinU2 cosU2 L Lambda) as [d | Lambda']
      eqn:Hit; [discriminate |].
    econstructor; [exact Hit | apply IH; exact H].
Qed.

Lemma run_Done (fuel : nat) (i : Z) (d : Distance) :
  run' fuel (Done i d) = Done i d.
Proof. destruct fuel; reflexivity. Qed.

(** With [n] iterations left, the machine stops within [n + 1] steps, at a
    counter that has not passed [MaxIterations], on the value of [loop]. *)
Lemma run_loop (n : nat) :
  forall (i : Z) (Lambda : float) (extra : nat),
    (0 <= i)%Z -> (i + Z.of_nat n = Z.of_nat MaxIterations)%Z ->
    exists j, (i <= j <= Z.of_nat MaxIterations)%Z
              /\ run' (S n + extra) (Running i Lambda) = Done j (loop' n Lambda).
Proof.
  induction n as [| n IH]; intros i Lambda extra Hi Hn.
  - exists i. split; [lia |].
    simpl. unfold for_step.
    replace (i <? Z.of_nat MaxIterations)%Z with false
      by (symmetry; apply Z.ltb_ge; lia).
    apply run_Done.
  - cbn [run loop Nat.add]. unfold for_step.
    replace (i <? Z.of_nat MaxIterations)%Z with true
      by (symmetry; apply Z.ltb_lt; lia).
    destruct (iteration M sinU1 cosU1 sinU2 cosU2 L Lambda) as [d | Lambda'].
    + exists i. split; [lia | reflexivity].
    + destruct (IH (i + 1)%Z Lambda' extra) as [j [Hj Hrun]]; [lia | lia |].
      exists j. split; [lia | exact Hrun].
Qed.

(** The machine leaves the loop by its exit test, at counter
    [MaxIterations], exactly when every iteration falls through. *)
Lemma run_exit (n : nat) :
  forall (i : Z) (Lambda : float),
    (0 <= i)%Z -> (i + Z.of_nat n = Z.of_nat MaxIterations)%Z ->
    (falls n Lambda
     <-> exists d, run' (S n) (Running i Lambda)
                   = Done (Z.of_nat MaxIterations) d).
Proof.
  induction n as [| n IH]; intros i Lambda Hi Hn.
  - split; [intros _ | intros _; constructor].
    exists (-1.0)%float. simpl. unfold for_step.
    replace (i <? Z.of_nat MaxIterations)%Z with false
      by (symmetry; apply Z.ltb_ge; lia).
    f_equal. change (Z.of_nat MaxIterations) with 200%Z in *. lia.
  - cbn [run]. unfold for_step.
    replace (i <? Z.of_nat MaxIterations)%Z with true
      by (symmetry; apply Z.ltb_lt; lia).
    split.
    + intros H. inversion H as [| n' l l' Hit Hrest]; subst.
      rewrite Hit. apply (IH (i + 1)%Z); [lia | lia | exact Hrest].
    + intros [d Hd].
      destruct (iteration M sinU1 cosU1 sinU2 cosU2 L Lambda) as [d' | Lambda']
        eqn:Hit.
      * cbn [run] in Hd. injection Hd as Hi' _.
        change (Z.of_nat MaxIterations) with 200%Z in *. lia.
      * econstructor; [exact Hit |].
        apply (IH (i + 1)%Z); [lia | lia | exists d; exact Hd].
Qed.

(** ... and the value it then returns is the sentinel. *)
Lemma falls_through_run (Lambda : float) :
  falls MaxIterations Lambda ->
  run' (S MaxIterations) (Running 0 Lambda)
  = Done (Z.of_nat MaxIterations) (-1.0).
Proof.
  intros Hn.
  destruct (run_loop MaxIterations 0%Z Lambda 0) as [j [_ Hrun]];
    [lia | reflexivity |].
  rewrite Nat.add_0_r in Hrun.
  rewrite (loop_falls_through _ _ Hn) in Hrun.
  apply (run_exit MaxIterations 0%Z) in Hn; [| lia | reflexivity].
  destruct Hn as [d Hd]. rewrite Hd in Hrun. injection Hrun as <- ->.
  exact Hd.
Qed.

End LoopFacts.

(** C3. [Inverse] terminates on every input: the machine of the [for]
    statement reaches a [return] within 201 steps (more fuel changes
    nothing), with a counter between 0 and 200, so the body has run at most
    200 times, and the value returned is the one of [Inverse]. *)
Theorem Inverse_terminates (M : MathLib) (point1 point2 : LatLng) (extra : nat) :
  exists i, (0 <= i <= 200)%Z
            /\ Inverse_run M (201 + extra) point1 point2
               = Some (i, Inverse M point1 point2).
Proof.
  unfold Inverse_run, Inverse.
  destruct (coincident point1 point2).
  - exists 0%Z. split; [lia | reflexivity].
  - destruct (run_loop M (Sin M (U_of M point1)) (Cos M (U_of M point1))
                (Sin M (U_of M point2)) (Cos M (U_of M point2))
                (L_of point1 point2) MaxIterations 0%Z (L_of point1 point2) extra)
      as [j [Hj Hrun]]; [lia | reflexivity |].
    exists j. split; [exact Hj |].
    change (201 + extra)%nat with (S MaxIterations + extra)%nat.
    cbv zeta. rewrite Hrun. reflexivity.
Qed.

(** C1. When the two points are not caught by the guard and all 200
    iterations complete without a [return] (the convergence test never
    succeeds), [Inverse] returns the sentinel [-1.0]: an ordinary [Distance],
    returned by the statement after the loop, with the counter at 200. *)
Theorem Inverse_not_converged (M : MathLib) (point1 point2 : LatLng) :
  coincident point1 point2 = false ->
  never_converges M point1 point2 ->
  Inverse M point1 point2 = -1.0
  /\ Inverse_run M 201 point1 point2 = Some (200%Z, -1.0).
Proof.
  intros Hc Hn.
  assert (Hv : Inverse M point1 point2 = -1.0).
  { unfold Inverse. rewrite Hc. apply loop_falls_through. exact Hn. }
  split; [exact Hv |].
  unfold Inverse_run. rewrite Hc. cbv zeta.
  apply (falls_through_run M) in Hn. fold MaxIterations in Hn.
  change 201%nat with (S MaxIterations). rewrite Hn. reflexivity.
Qed.

Lemma Inverse_not_converged_witness :
  coincident (pt 0 0) (pt 0.5 179.7) = false
  /\ never_converges RefMath.lib (pt 0 0) (pt 0.5 179.7)
  /\ Inverse RefMath.lib (pt 0 0) (pt 0.5 179.7) = -1.0
  /\ Inverse_run RefMath.lib 201 (pt 0 0) (pt 0.5 179.7) = Some (200%Z, -1.0).
Proof.
  assert (Hn : never_converges RefMath.lib (pt 0 0) (pt 0.5 179.7)).
  { apply falls_throughb_sound. vm_compute. reflexivity. }
  split; [reflexivity | split; [exact Hn |]].
  apply (Inverse_not_converged RefMath.lib (pt 0 0) (pt 0.5 179.7)).
  - reflexivity.
  - exact Hn.
Defined.

(** X1. Conversely the statement after the loop is reached only that way: a
    run that ends with the counter at 200 has fallen through all iterations,
    and returns [-1.0]. *)
Lemma sentinel_exit_only (M : MathLib) (point1 point2 : LatLng) (d : Distance) :
  coincident point1 point2 = false ->
  Inverse_run M 201 point1 point2 = Some (200%Z, d) ->
  never_converges M point1 point2 /\ d = -1.0.
Proof.
  intros Hc Hrun.
  unfold Inverse_run in Hrun. rewrite Hc in Hrun. cbv zeta in Hrun.
  assert (Hn : never_converges M point1 point2).
  { apply (run_exit M _ _ _ _ _ MaxIterations 0%Z); [lia | reflexivity |].
    change (S MaxIterations) with 201%nat.
    destruct (run M _ _ _ _ _ 201 _) as [i l | i d0]; [discriminate |].
    injection Hrun as -> ->. exists d. reflexivity. }
  split; [exact Hn |].
  apply (falls_through_run M) in Hn. fold MaxIterations in Hn.
  change 201%nat with (S MaxIterations) in Hrun. rewrite Hn in Hrun.
  injection Hrun as <-. reflexivity.
Qed.

Lemma sentinel_exit_only_witness :
  coincident (pt 0 0) (pt 0.5 179.7) = false
  /\ Inverse_run RefMath.lib 201 (pt 0 0) (pt 0.5 179.7) = Some (200%Z, -1.0)
  /\ never_converges RefMath.lib (pt 0 0) (pt 0.5 179.7) /\ -1.0 = -1.0.
Proof.
  assert (H : Inverse_run RefMath.lib 201 (pt 0 0) (pt 0.5 179.7)
              = Some (200%Z, -1.0)) by (vm_compute; reflexivity).
  split; [reflexivity | split; [exact H |]].
  apply (sentinel_exit_only RefMath.lib (pt 0 0) (pt 0.5 179.7) (-1.0)).
  - reflexivity.
  - exact H.
Defined.

(** ** The coincidence guard *)

(** The guard compares with Go's [==], which is false on NaN. *)
Lemma coincident_same (point : LatLng) :
  is_nan (Latitude point) = false ->
  is_nan (Longitude point) = false ->
  coincident point point = true.
Proof.
  intros Hlat Hlon. unfold coincident.
  rewrite (eqb_refl _ Hlat), (eqb_refl _ Hlon). reflexivity.
Qed.

(** C2, as the code has it. For every point [P] whose coordinates are not
    NaN, [Inverse(P, P)] is [0.0] exactly, returned by the guard: the machine
    of the loop is not started (no fuel is needed) and nothing is rounded. *)
Theorem Inverse_same_point (M : MathLib) (point : LatLng) :
  is_nan (Latitude point) = false ->
  is_nan (Longitude point) = false ->
  Inverse M point point = 0.0
  /\ Inverse_run M 0 point point = Some (0%Z, 0.0).
Proof.
  intros Hlat Hlon. unfold Inverse, Inverse_run.
  rewrite (coincident_same point Hlat Hlon). split; reflexivity.
Qed.

Lemma Inverse_same_point_witness :
  is_nan (Latitude Boston) = false
  /\ is_nan (Longitude Boston) = false
  /\ Inverse RefMath.lib Boston Boston = 0.0
  /\ Inverse_run RefMath.lib 0 Boston Boston = Some (0%Z, 0.0).
Proof.
  split; [reflexivity | split; [reflexivity |]].
  apply (Inverse_same_point RefMath.lib Boston); reflexivity.
Defined.

(** C2, as stated, fails on a point with a NaN coordinate: the guard is
    skipped and the call ends on the sentinel. *)
Lemma Inverse_same_point_NaN :
  Inverse RefMath.lib (pt nan 0) (pt nan 0) = -1.0
  /\ Inverse RefMath.lib (pt nan 0) (pt nan 0) <> 0.0.
Proof.
  assert (H : Inverse RefMath.lib (pt nan 0) (pt nan 0) = -1.0)
    by (vm_compute; reflexivity).
  split; [exact H |].
  rewrite H. intros E.
  assert (E' : (-1.0 =? 0.0) = (0.0 =? 0.0)) by (rewrite E; reflexivity).
  vm_compute in E'. discriminate E'.
Qed.

(** ** NaN coordinates *)

Section NaN.

Context (M : MathLib).

(** Once [sinSigma] is NaN the body neither returns [0] nor converges, and
    the next [Lambda] is NaN. *)
Lemma iteration_sinSigma_nan (sinU1 cosU1 sinU2 cosU2 L Lambda : float) :
  sinSigma_of M sinU1 cosU1 sinU2 cosU2 Lambda = nan ->
  iteration M sinU1 cosU1 sinU2 cosU2 L Lambda = Next nan.
Proof.
  unfold sinSigma_of, iteration. intros H. cbv zeta. rewrite H.
  change (nan =? 0.0) with false. cbv iota.
  nan_simpl. change (neqb nan 0) with true. cbv iota.
  nan_simpl. reflexivity.
Qed.

Lemma sinSigma_Lambda_nan (sinU1 cosU1 sinU2 cosU2 : float) :
  sinSigma_of M sinU1 cosU1 sinU2 cosU2 nan = nan.
Proof. unfold sinSigma_of. nan_simpl. reflexivity. Qed.

Lemma sinSigma_U1_nan (sinU2 cosU2 Lambda : float) :
  sinSigma_of M nan nan sinU2 cosU2 Lambda = nan.
Proof. unfold sinSigma_of. nan_simpl. reflexivity. Qed.

Lemma sinSigma_U2_nan (sinU1 cosU1 Lambda : float) :
  sinSigma_of M sinU1 cosU1 nan nan Lambda = nan.
Proof. unfold sinSigma_of. nan_simpl. reflexivity. Qed.

(** A loop whose [sinSigma] is NaN at its first [Lambda] and at NaN runs to
    the end. *)
Lemma loop_nan (sinU1 cosU1 sinU2 cosU2 L : float) (n : nat) :
  forall Lambda,
    (forall l, l = Lambda \/ l = nan ->
               sinSigma_of M sinU1 cosU1 sinU2 cosU2 l = nan) ->
    loop M sinU1 cosU1 sinU2 cosU2 L n Lambda = -1.0.
Proof.
  induction n as [| n IH]; intros Lambda H; simpl.
  - reflexivity.
  - rewrite iteration_sinSigma_nan by (apply H; left; reflexivity).
    apply IH. intros l [-> | ->]; apply H; right; reflexivity.
Qed.

Lemma U_of_nan (point : LatLng) :
  Latitude point = nan -> U_of M point = nan.
Proof. intros H. unfold U_of. rewrite H. nan_simpl. reflexivity. Qed.

Lemma L_of_nan (point1 point2 : LatLng) :
  Longitude point1 = nan \/ Longitude point2 = nan ->
  L_of point1 point2 = nan.
Proof.
  intros [H | H]; unfold L_of; rewrite H; nan_simpl; reflexivity.
Qed.

Lemma coincident_nan (point1 point2 : LatLng) :
  Latitude point1 = nan \/ Longitude point1 = nan
  \/ Latitude point2 = nan \/ Longitude point2 = nan ->
  coincident point1 point2 = false.
Proof.
  unfold coincident. intros [H | [H | [H | H]]]; rewrite H;
    rewrite ?eqb_nan_l, ?eqb_nan_r, ?andb_false_r; reflexivity.
Qed.

End NaN.

(** C9. If a coordinate of either point is NaN, [Inverse] returns the
    sentinel [-1.0]: the guard is false, [sinSigma] is NaN in every
    iteration, no test succeeds and the loop runs out. *)
Theorem Inverse_NaN (M : MathLib) (point1 point2 : LatLng) :
  is_nan (Latitude point1) || is_nan (Longitude point1)
  || is_nan (Latitude point2) || is_nan (Longitude point2) = true ->
  Inverse M point1 point2 = -1.0.
Proof.
  intros H.
  assert (Hcases : Latitude point1 = nan \/ Longitude point1 = nan
                   \/ Latitude point2 = nan \/ Longitude point2 = nan).
  { repeat (apply orb_true_iff in H; destruct H as [H | H]);
      apply is_nan_eq in H; tauto. }
  unfold Inverse. rewrite (coincident_nan point1 point2 Hcases). cbv zeta.
  apply loop_nan. intros l Hl.
  destruct Hcases as [H1 | [H1 | [H1 | H1]]].
  - rewrite (U_of_nan M point1 H1). nan_simpl. apply sinSigma_U1_nan.
  - rewrite (L_of_nan point1 point2 (or_introl H1)) in Hl.
    assert (l = nan) as -> by tauto. apply sinSigma_Lambda_nan.
  - rewrite (U_of_nan M point2 H1). nan_simpl. apply sinSigma_U2_nan.
  - rewrite (L_of_nan point1 point2 (or_intror H1)) in Hl.
    assert (l = nan) as -> by tauto. apply sinSigma_Lambda_nan.
Qed.

Lemma Inverse_NaN_witness :
  is_nan (Latitude Boston) || is_nan (Longitude Boston)
  || is_nan (Latitude (pt 40.7791472 nan))
  || is_nan (Longitude (pt 40.7791472 nan)) = true
  /\ Inverse RefMath.lib Boston (pt 40.7791472 nan) = -1.0.
Proof.
  split; [reflexivity |].
  apply (Inverse_NaN RefMath.lib Boston (pt 40.7791472 nan)). reflexivity.
Defined.

(** ** Divisions *)

Section DivisionFacts.

Context (M : MathLib).
Variables sinU1 cosU1 sinU2 cosU2 L : float.

Lemma neqb_nonzero (x : float) : neqb x 0 = true -> nonzero x.
Proof. unfold neqb, nonzero. intros H. apply negb_true_iff in H. exact H. Qed.

(** One iteration: the logged body computes what the body computes, and no
    divisor it meets is zero. *)
Lemma iteration_log_spec (Lambda : float) :
  fst (iteration_log M sinU1 cosU1 sinU2 cosU2 L Lambda)
  = iteration M sinU1 cosU1 sinU2 cosU2 L Lambda
  /\ Forall nonzero (snd (iteration_log M sinU1 cosU1 sinU2 cosU2 L Lambda)).
Proof.
  unfold iteration_log, iteration. cbv zeta.
  destruct (Sqrt (square (cosU2 * Sin M Lambda)
                  + square (cosU1 * sinU2 - sinU1 * cosU2 * Cos M Lambda))
            =? 0.0) eqn:Hs.
  - split; [reflexivity | constructor].
  - unfold bind, fdiv, ret.
    destruct (neqb (1.0 - square (cosU1 * cosU2 * Sin M Lambda
                                  / Sqrt (square (cosU2 * Sin M Lambda)
                                          + square (cosU1 * sinU2
                                                    - sinU1 * cosU2 * Cos M Lambda))))
                   0) eqn:Hc.
    + match goal with
      | |- context [if ?c then _ else _] => destruct c
      end; (split; [reflexivity |]);
        repeat (apply Forall_cons || apply Forall_nil);
        try exact Hs; try (apply neqb_nonzero; exact Hc); reflexivity.
    + match goal with
      | |- context [if ?c then _ else _] => destruct c
      end; (split; [reflexivity |]);
        repeat (apply Forall_cons || apply Forall_nil);
        try exact Hs; reflexivity.
Qed.

(** The first guard: [sinSigma == 0] returns before any division. *)
Lemma iteration_log_sinSigma_zero (Lambda : float) :
  (sinSigma_of M sinU1 cosU1 sinU2 cosU2 Lambda =? 0.0) = true ->
  iteration_log M sinU1 cosU1 sinU2 cosU2 L Lambda = (Return 0.0, []).
Proof.
  unfold sinSigma_of, iteration_log. cbv zeta. intros H. rewrite H. reflexivity.
Qed.

(** C7. In every iteration both divisions are guarded: the body returns
    [0.0] when [sinSigma == 0] before dividing by [sinSigma], and takes
    [cos2SigmaM = 0.0] when [cosSqAlpha == 0] instead of dividing by
    [cosSqAlpha].  On the logged loop, which returns what the loop returns,
    no divisor is zero, whatever the inputs and the number of iterations. *)
Theorem loop_divisions_guarded (n : nat) :
  forall Lambda,
    fst (loop_log M sinU1 cosU1 sinU2 cosU2 L n Lambda)
    = loop M sinU1 cosU1 sinU2 cosU2 L n Lambda
    /\ Forall nonzero (snd (loop_log M sinU1 cosU1 sinU2 cosU2 L n Lambda)).
Proof.
  induction n as [| n IH]; intros Lambda; simpl.
  - split; [reflexivity | constructor].
  - destruct (iteration_log_spec Lambda) as [Hv Hd].
    destruct (iteration_log M sinU1 cosU1 sinU2 cosU2 L Lambda) as [r l].
    simpl in Hv, Hd. rewrite <- Hv. unfold bind.
    destruct r as [d | Lambda'].
    + simpl. rewrite app_nil_r. split; [reflexivity | exact Hd].
    + destruct (IH Lambda') as [Hv' Hd'].
      destruct (loop_log M sinU1 cosU1 sinU2 cosU2 L n Lambda') as [d l'].
      simpl in *. split; [exact Hv' | apply Forall_app; split; assumption].
Qed.

End DivisionFacts.


(** The divisors of the first iteration between Boston and New York, in
    program order: [sinSigma], [cosSqAlpha], then the constants. *)
Example Boston_NewYork_divisors :
  let U1 := U_of RefMath.lib Boston in
  let U2 := U_of RefMath.lib NewYork in
  let L := L_of Boston NewYork in
  snd (iteration_log RefMath.lib (RefMath.sin U1) (RefMath.cos U1)
         (RefMath.sin U2) (RefMath.cos U2) L L)
  = [0.046797432872274912; 0.63215830865770828; 16].
Proof. vm_compute. reflexivity. Qed.

(** ** Rounding to the millimetre *)

Lemma digits2_pos_bound (m : positive) :
  (Z.pos m < 2 ^ Z.pos (digits2_pos m))%Z.
Proof.
  induction m as [m IH | m IH |]; simpl digits2_pos.
  - rewrite Pos2Z.inj_succ, Z.pow_succ_r by lia. lia.
  - rewrite Pos2Z.inj_succ, Z.pow_succ_r by lia. lia.
  - reflexivity.
Qed.

(** The mantissa of a binary64 float has at most 53 bits. *)
Lemma mantissa_bound (x : float) (s : bool) (m : positive) (e : Z) :
  Prim2SF x = S754_finite s m e -> (Z.pos m < 2 ^ 53)%Z.
Proof.
  intros Hx. pose proof (Prim2SF_valid x) as Hv. rewrite Hx in Hv.
  unfold SpecFloat.valid_binary, bounded, canonical_mantissa, fexp in Hv.
  apply andb_true_iff in Hv. destruct Hv as [Hc _].
  apply Z.eqb_eq in Hc.
  assert (Hd : (Z.pos (digits2_pos m) <= 53)%Z) by (unfold prec in Hc; lia).
  pose proof (digits2_pos_bound m) as Hb.
  assert (Hp : (2 ^ Z.pos (digits2_pos m) <= 2 ^ 53)%Z)
    by (apply Z.pow_le_mono_r; lia).
  lia.
Qed.

Lemma not_finite_cases (x : float) :
  (exists s, Prim2SF x = S754_infinity s) \/ Prim2SF x = S754_nan ->
  not_finite x.
Proof.
  unfold not_finite. intros [[s H] | H].
  - destruct s; [right; right | right; left]; apply Prim2SF_inj; rewrite H;
      reflexivity.
  - left. apply Prim2SF_inj. rewrite H. reflexivity.
Qed.

(** [Round] returns a whole number, unless its argument is NaN or infinite
    (and is then returned as it is). *)
Lemma Round_whole (x : float) :
  whole (Round x) \/ (Round x = x /\ not_finite x).
Proof.
  unfold Round. destruct (Prim2SF x) as [s | s | | s m e] eqn:Hx.
  - left. rewrite <- (SF2Prim_Prim2SF x), Hx.
    destruct s.
    + change (SF2Prim (S754_zero true)) with (- of_Z 0).
      apply whole_neg. lia.
    + change (SF2Prim (S754_zero false)) with (of_Z 0).
      apply whole_pos. lia.
  - right. split; [reflexivity |]. apply not_finite_cases. left. eauto.
  - right. split; [reflexivity |]. apply not_finite_cases. right. exact Hx.
  - left. destruct (0 <=? e)%Z eqn:He.
    + apply (whole_big x s m e Hx). apply Z.leb_le. exact He.
    + apply Z.leb_gt in He.
      pose proof (mantissa_bound x s m e Hx) as Hm.
      assert (Hq : (0 <= Z.shiftl (Z.pos m) e < 2 ^ 52)%Z).
      { rewrite Z.shiftl_div_pow2 by lia.
        assert (H2 : (2 ^ 1 <= 2 ^ (- e))%Z) by (apply Z.pow_le_mono_r; lia).
        assert (Hpos : (0 < 2 ^ (- e))%Z) by (apply Z.pow_pos_nonneg; lia).
        split; [apply Z.div_pos; lia |].
        apply Z.div_lt_upper_bound; [lia |].
        change (2 ^ 53)%Z with (2 ^ 1 * 2 ^ 52)%Z in Hm. nia. }
      assert (Hn : (0 <= (if Z.testbit (Z.pos m) (- e - 1)
                          then Z.shiftl (Z.pos m) e + 1
                          else Z.shiftl (Z.pos m) e) <= 2 ^ 53)%Z).
      { change (2 ^ 53)%Z with (2 * 2 ^ 52)%Z.
        destruct (Z.testbit (Z.pos m) (- e - 1)); lia. }
      cbv zeta.
      destruct s; [apply whole_neg | apply whole_pos]; exact Hn.
Qed.

Section Results.

Context (M : MathLib).
Variables sinU1 cosU1 sinU2 cosU2 L : float.

Lemma iteration_Return (Lambda : float) (d : Distance) :
  iteration M sinU1 cosU1 sinU2 cosU2 L Lambda = Return d -> loop_value d.
Proof.
  unfold iteration. cbv zeta.
  destruct (_ =? 0.0).
  - intros [= <-]. left. reflexivity.
  - destruct (_ <? ConvergenceThreshold); [| discriminate].
    intros [= <-]. right. do 5 eexists. split.
    + unfold arc_length. reflexivity.
    + match goal with
      | |- whole (Round ?t) \/ _ =>
          destruct (Round_whole t) as [Hw | [_ Hn]];
            [left; exact Hw | right; exact Hn]
      end.
Qed.

Lemma loop_cases (n : nat) :
  forall Lambda,
    loop M sinU1 cosU1 sinU2 cosU2 L n Lambda = -1.0
    \/ loop_value (loop M sinU1 cosU1 sinU2 cosU2 L n Lambda).
Proof.
  induction n as [| n IH]; intros Lambda; simpl.
  - left. reflexivity.
  - destruct (iteration M sinU1 cosU1 sinU2 cosU2 L Lambda) as [d | Lambda']
      eqn:Hit.
    + right. apply (iteration_Return Lambda). exact Hit.
    + apply IH.
Qed.

End Results.


(** Boston to New York: 298396057 millimetres. *)
Example Boston_NewYork_millimetres :
  Inverse RefMath.lib Boston NewYork = of_Z 298396057 / 1000.
Proof. vm_compute. reflexivity. Qed.

(** ** The reference scenarios *)

(** C4. The six reference scenarios of the test suite, in metres; the
    fourth converges in its 182nd iteration (counter 181), the fifth leaves
    the loop unconverged (counter 200). *)
Theorem reference_scenarios :
  Inverse RefMath.lib (pt 0.0 0.0) (pt 0.0 0.0) = 0.0
  /\ Inverse RefMath.lib (pt 0.0 0.0) (pt 0.0 1.0) = 111319.491
  /\ Inverse RefMath.lib (pt 0.0 0.0) (pt 1.0 0.0) = 110574.389
  /\ Inverse RefMath.lib (pt 0.0 0.0) (pt 0.5 179.5) = 19936288.579
  /\ Inverse RefMath.lib (pt 0.0 0.0) (pt 0.5 179.7) = -1.0
  /\ Inverse RefMath.lib Boston NewYork = 298396.057
  /\ Inverse_run RefMath.lib 201 (pt 0.0 0.0) (pt 0.5 179.5)
     = Some (181%Z, 19936288.579)
  /\ Inverse_run RefMath.lib 201 (pt 0.0 0.0) (pt 0.5 179.7)
     = Some (200%Z, -1.0).
Proof. repeat split; vm_compute; reflexivity. Qed.

(** ** Symmetry

    Swapping the points negates [L] and leaves [U1], [U2] exchanged.  When
    the latitudes are equal the exchange is invisible and the whole run is
    mirrored; otherwise [sinSigma] is computed from different products. *)


(** Sign flips commute with the rounding of every operation. *)
Section SF.
Variables prec emax : Z.

Lemma binary_round_aux_opp s m e l :
  binary_round_aux prec emax (negb s) m e l
  = SFopp (binary_round_aux prec emax s m e l).
Proof.
  unfold binary_round_aux.
  destruct (shr_fexp prec emax m e l) as [mrs' e'].
  destruct (shr_fexp prec emax _ e' loc_Exact) as [mrs'' e''].
  destruct (shr_m mrs''); try reflexivity.
  destruct (e'' <=? emax - prec)%Z; reflexivity.
Qed.

Lemma binary_round_opp s m e :
  binary_round prec emax (negb s) m e = SFopp (binary_round prec emax s m e).
Proof.
  unfold binary_round. destruct (shl_align _ _ _) as [mz ez].
  apply binary_round_aux_opp.
Qed.

Lemma SFmul_opp_l x y :
  SFmul prec emax (SFopp x) y = SFopp (SFmul prec emax x y).
Proof.
  destruct x as [sx | sx | | sx mx ex], y as [sy | sy | | sy my ey];
    simpl; try reflexivity; try (destruct sx, sy; reflexivity).
  rewrite <- binary_round_aux_opp. f_equal. destruct sx, sy; reflexivity.
Qed.

Lemma SFmul_opp_r x y :
  SFmul prec emax x (SFopp y) = SFopp (SFmul prec emax x y).
Proof.
  destruct x as [sx | sx | | sx mx ex], y as [sy | sy | | sy my ey];
    simpl; try reflexivity; try (destruct sx, sy; reflexivity).
  rewrite <- binary_round_aux_opp. f_equal. destruct sx, sy; reflexivity.
Qed.

Lemma SFdiv_opp_l x y :
  SFdiv prec emax (SFopp x) y = SFopp (SFdiv prec emax x y).
Proof.
  destruct x as [sx | sx | | sx mx ex], y as [sy | sy | | sy my ey];
    simpl; try reflexivity; try (destruct sx, sy; reflexivity).
  destruct (SFdiv_core_binary prec emax (Z.pos mx) ex (Z.pos my) ey) as [[mz ez] lz].
  rewrite <- binary_round_aux_opp. f_equal. destruct sx, sy; reflexivity.
Qed.

Lemma binary_normalize_opp z e :
  binary_normalize prec emax (- z) e false
  = SFopp (binary_normalize prec emax z e false)
  \/ (z = 0%Z).
Proof.
  destruct z as [| p | p]; simpl.
  - right. reflexivity.
  - left. apply (binary_round_opp false).
  - left. rewrite <- (binary_round_opp true). reflexivity.
Qed.

Lemma cond_Zopp_negb s z : cond_Zopp (negb s) z = (- cond_Zopp s z)%Z.
Proof. destruct s; simpl; lia. Qed.

Lemma SFadd_opp x y :
  SFadd prec emax (SFopp x) (SFopp y) = SFopp (SFadd prec emax x y)
  \/ (SFadd prec emax (SFopp x) (SFopp y) = S754_zero false
      /\ SFadd prec emax x y = S754_zero false).
Proof.
  destruct x as [sx | sx | | sx mx ex], y as [sy | sy | | sy my ey];
    simpl; try (left; reflexivity);
    try (destruct sx, sy; simpl; (left; reflexivity) || (right; split; reflexivity)).
  rewrite !cond_Zopp_negb, <- Z.opp_add_distr.
  destruct (binary_normalize_opp
              (cond_Zopp sx (Z.pos (fst (shl_align mx ex (Z.min ex ey))))
               + cond_Zopp sy (Z.pos (fst (shl_align my ey (Z.min ex ey)))))
              (Z.min ex ey)) as [H | H].
  - left. exact H.
  - right. rewrite H. split; reflexivity.
Qed.

Lemma SFadd_comm x y : SFadd prec emax x y = SFadd prec emax y x.
Proof.
  destruct x as [sx | sx | | sx mx ex], y as [sy | sy | | sy my ey];
    simpl; try reflexivity; try (destruct sx, sy; reflexivity).
  rewrite (Z.min_comm ey ex), Z.add_comm. reflexivity.
Qed.

Lemma SFsub_add_opp x y : SFsub prec emax x y = SFadd prec emax x (SFopp y).
Proof.
  destruct x as [sx | sx | | sx mx ex], y as [sy | sy | | sy my ey];
    simpl; try reflexivity; destruct sx, sy; reflexivity.
Qed.

End SF.

(** The same on primitive floats. *)
Lemma opp_involutive x : - - x = x.
Proof.
  apply Prim2SF_inj. rewrite !opp_spec. destruct (Prim2SF x) as [s|s| |s m e];
    simpl; rewrite ?negb_involutive; reflexivity.
Qed.

Lemma mul_opp_l x y : (- x) * y = - (x * y).
Proof. apply Prim2SF_inj. rewrite opp_spec, !mul_spec, opp_spec. apply SFmul_opp_l. Qed.

Lemma mul_opp_r x y : x * (- y) = - (x * y).
Proof. apply Prim2SF_inj. rewrite opp_spec, !mul_spec, opp_spec. apply SFmul_opp_r. Qed.

Lemma div_opp_l x y : (- x) / y = - (x / y).
Proof. apply Prim2SF_inj. rewrite opp_spec, !div_spec, opp_spec. apply SFdiv_opp_l. Qed.

Lemma abs_opp x : abs (- x) = abs x.
Proof.
  apply Prim2SF_inj. rewrite !abs_spec, opp_spec.
  destruct (Prim2SF x); reflexivity.
Qed.

Lemma add_comm x y : x + y = y + x.
Proof. apply Prim2SF_inj. rewrite !add_spec. apply SFadd_comm. Qed.

Lemma sub_add_opp x y : x - y = x + - y.
Proof. apply Prim2SF_inj. rewrite sub_spec, add_spec, opp_spec. apply SFsub_add_opp. Qed.

Lemma is_zero_Prim2SF x :
  is_zero x = true <-> exists s, Prim2SF x = S754_zero s.
Proof.
  unfold is_zero. rewrite FloatAxioms.eqb_spec. change (Prim2SF zero) with (S754_zero false).
  destruct (Prim2SF x) as [s | s | | s m e]; simpl; split; intros H.
  - eauto.
  - reflexivity.
  - destruct s; discriminate.
  - destruct H as [s0 H]. discriminate.
  - discriminate.
  - destruct H as [s0 H]. discriminate.
  - unfold SFeqb, SFcompare in H. destruct s; discriminate.
  - destruct H as [s0 H]. discriminate.
Qed.

Lemma SF_zero_inj x s : Prim2SF x = S754_zero s -> x = if s then neg_zero else zero.
Proof.
  intros H. apply Prim2SF_inj. rewrite H. destruct s; reflexivity.
Qed.

Lemma is_zero_opp x : is_zero x = true -> is_zero (- x) = true.
Proof.
  rewrite !is_zero_Prim2SF. intros [s H]. exists (negb s). rewrite opp_spec, H. reflexivity.
Qed.

Lemma mirrored_zeros x y : is_zero x = true -> is_zero y = true -> mirrored x y.
Proof.
  intros Hx Hy. pose proof Hx as Hxz.
  apply is_zero_Prim2SF in Hx. apply is_zero_Prim2SF in Hy.
  destruct Hx as [sx Hx], Hy as [sy Hy].
  apply SF_zero_inj in Hx, Hy. subst.
  destruct sx, sy; unfold mirrored; (left; reflexivity) || (right; split; [reflexivity | exact Hxz]).
Qed.

Lemma mirrored_nan : mirrored nan nan.
Proof. left. reflexivity. Qed.

(** Products and quotients of a zero are zero or NaN. *)
Lemma mul_zero_l x c : is_zero x = true -> is_zero (x * c) = true \/ x * c = nan.
Proof.
  intros Hx. apply is_zero_Prim2SF in Hx. destruct Hx as [s Hx].
  destruct (Prim2SF c) as [sc|sc| |sc mc ec] eqn:Hc.
  - left. apply is_zero_Prim2SF. rewrite mul_spec, Hx, Hc. simpl. eauto.
  - right. apply Prim2SF_inj. rewrite mul_spec, Hx, Hc. reflexivity.
  - right. apply Prim2SF_inj. rewrite mul_spec, Hx, Hc. reflexivity.
  - left. apply is_zero_Prim2SF. rewrite mul_spec, Hx, Hc. simpl. eauto.
Qed.

Lemma mul_zero_r x c : is_zero x = true -> is_zero (c * x) = true \/ c * x = nan.
Proof.
  intros Hx. apply is_zero_Prim2SF in Hx. destruct Hx as [s Hx].
  destruct (Prim2SF c) as [sc|sc| |sc mc ec] eqn:Hc.
  - left. apply is_zero_Prim2SF. rewrite mul_spec, Hx, Hc. simpl. eauto.
  - right. apply Prim2SF_inj. rewrite mul_spec, Hx, Hc. reflexivity.
  - right. apply Prim2SF_inj. rewrite mul_spec, Hx, Hc. reflexivity.
  - left. apply is_zero_Prim2SF. rewrite mul_spec, Hx, Hc. simpl. eauto.
Qed.

Lemma div_zero_l x c : is_zero x = true -> is_zero (x / c) = true \/ x / c = nan.
Proof.
  intros Hx. apply is_zero_Prim2SF in Hx. destruct Hx as [s Hx].
  destruct (Prim2SF c) as [sc|sc| |sc mc ec] eqn:Hc.
  - right. apply Prim2SF_inj. rewrite div_spec, Hx, Hc. reflexivity.
  - left. apply is_zero_Prim2SF. rewrite div_spec, Hx, Hc. simpl. eauto.
  - right. apply Prim2SF_inj. rewrite div_spec, Hx, Hc. reflexivity.
  - left. apply is_zero_Prim2SF. rewrite div_spec, Hx, Hc. simpl. eauto.
Qed.

Lemma zero_or_nan_mirrored v : is_zero v = true \/ v = nan -> mirrored v v.
Proof.
  intros [H | ->]; [right; split; [reflexivity | exact H] | apply mirrored_nan].
Qed.

Lemma mirrored_mul_l x y c : mirrored x y -> mirrored (x * c) (y * c).
Proof.
  intros [-> | [-> Hz]].
  - left. apply mul_opp_l.
  - apply zero_or_nan_mirrored, mul_zero_l, Hz.
Qed.

Lemma mirrored_mul_r x y c : mirrored x y -> mirrored (c * x) (c * y).
Proof.
  intros [-> | [-> Hz]].
  - left. apply mul_opp_r.
  - apply zero_or_nan_mirrored, mul_zero_r, Hz.
Qed.

Lemma mirrored_div x y c : mirrored x y -> mirrored (x / c) (y / c).
Proof.
  intros [-> | [-> Hz]].
  - left. apply div_opp_l.
  - apply zero_or_nan_mirrored, div_zero_l, Hz.
Qed.

Lemma mirrored_opp x y : mirrored x y -> mirrored (- x) (- y).
Proof.
  intros [-> | [-> Hz]].
  - left. reflexivity.
  - right. split; [reflexivity | apply is_zero_opp, Hz].
Qed.

Lemma mirrored_square x y : mirrored x y -> square y = square x.
Proof.
  unfold square. intros [-> | [-> _]]; [| reflexivity].
  rewrite mul_opp_l, mul_opp_r. apply opp_involutive.
Qed.

Lemma mirrored_abs x y : mirrored x y -> abs y = abs x.
Proof. intros [-> | [-> _]]; [apply abs_opp | reflexivity]. Qed.

Lemma add_opp_opp a b : mirrored (a + b) (- a + - b).
Proof.
  destruct (SFadd_opp prec emax (Prim2SF a) (Prim2SF b)) as [H | [H1 H2]].
  - left. apply Prim2SF_inj. rewrite opp_spec, !add_spec, !opp_spec. exact H.
  - apply mirrored_zeros; apply is_zero_Prim2SF; exists false;
      rewrite add_spec, ?opp_spec; assumption.
Qed.

Lemma add_zero_r a b : is_zero b = true -> is_zero a = true \/ a + b = a.
Proof.
  intros Hb. apply is_zero_Prim2SF in Hb. destruct Hb as [s Hb].
  destruct (Prim2SF a) as [sa|sa| |sa ma ea] eqn:Ha.
  - left. apply is_zero_Prim2SF. eauto.
  - right. apply Prim2SF_inj. rewrite add_spec, Ha, Hb. reflexivity.
  - right. apply Prim2SF_inj. rewrite add_spec, Ha, Hb. reflexivity.
  - right. apply Prim2SF_inj. rewrite add_spec, Ha, Hb. reflexivity.
Qed.

Lemma add_zeros a b : is_zero a = true -> is_zero b = true -> is_zero (a + b) = true.
Proof.
  rewrite !is_zero_Prim2SF. intros [sa Ha] [sb Hb]. rewrite add_spec, Ha, Hb.
  destruct sa, sb; simpl; eauto.
Qed.

Lemma mirrored_add_zero a b :
  is_zero b = true -> mirrored (a + b) (- a + b).
Proof.
  intros Hb. destruct (add_zero_r a b Hb) as [Hz | He].
  - apply mirrored_zeros; apply add_zeros; auto using is_zero_opp.
  - rewrite He. destruct (add_zero_r (- a) b Hb) as [Hz | He2].
    + apply is_zero_opp in Hz. rewrite opp_involutive in Hz.
      apply mirrored_zeros; [exact Hz |]. apply add_zeros; auto using is_zero_opp.
    + rewrite He2. left. reflexivity.
Qed.

Lemma mirrored_add a a2 b b2 :
  mirrored a a2 -> mirrored b b2 -> mirrored (a + b) (a2 + b2).
Proof.
  intros [-> | [-> Ha]] [-> | [-> Hb]].
  - apply add_opp_opp.
  - apply mirrored_add_zero, Hb.
  - rewrite (add_comm a b), (add_comm a (- b)). apply mirrored_add_zero, Ha.
  - right. split; [reflexivity | apply add_zeros; assumption].
Qed.

Lemma mirrored_sub a a2 b b2 :
  mirrored a a2 -> mirrored b b2 -> mirrored (a - b) (a2 - b2).
Proof.
  intros Ha Hb. rewrite !sub_add_opp. apply mirrored_add; [exact Ha | apply mirrored_opp, Hb].
Qed.

Lemma sub_swap a b : mirrored (a - b) (b - a).
Proof.
  rewrite !sub_add_opp, (add_comm b (- a)).
  rewrite <- (opp_involutive b) at 2. apply add_opp_opp.
Qed.

Lemma eqb_sym x y : (x =? y) = (y =? x).
Proof.
  rewrite !FloatAxioms.eqb_spec. unfold SFeqb.
  destruct (Prim2SF x) as [sx|sx| |sx mx ex], (Prim2SF y) as [sy|sy| |sy my ey];
    simpl; try reflexivity; try (destruct sx, sy; reflexivity).
  assert (Hp : Pos.compare_cont Eq my mx = CompOpp (Pos.compare_cont Eq mx my))
    by (rewrite Pos.compare_cont_antisym; reflexivity).
  assert (Hz : (ey ?= ex)%Z = CompOpp (ex ?= ey)%Z) by apply Z.compare_antisym.
  rewrite Hp, Hz.
  destruct sx, sy, (ex ?= ey)%Z, (Pos.compare_cont Eq mx my); reflexivity.
Qed.

Lemma eqb_opp_0 x : (- x =? 0) = (x =? 0).
Proof.
  rewrite !FloatAxioms.eqb_spec, opp_spec.
  destruct (Prim2SF x) as [s | s | | s m e]; try reflexivity; destruct s; reflexivity.
Qed.

Lemma is_nan_opp x : is_nan (- x) = is_nan x.
Proof.
  unfold is_nan. rewrite !FloatAxioms.eqb_spec, opp_spec.
  destruct (Prim2SF x) as [s | s | | s m e]; try reflexivity.
  - destruct s; reflexivity.
  - unfold SFeqb, SFcompare, SFopp.
    destruct s; simpl; rewrite Z.compare_refl, Pos.compare_cont_refl; reflexivity.
Qed.

Lemma is_infinity_opp x : is_infinity (- x) = is_infinity x.
Proof. unfold is_infinity. rewrite abs_opp. reflexivity. Qed.

Lemma ltb_opp_0 x :
  (x =? 0) = false -> is_nan x = false -> (- x <? 0) = negb (x <? 0).
Proof.
  unfold is_nan. rewrite !FloatAxioms.eqb_spec, !ltb_spec, opp_spec.
  change (Prim2SF 0) with (S754_zero false).
  destruct (Prim2SF x) as [s | s | | s m e]; simpl; intros H1 H2;
    try discriminate; destruct s; reflexivity.
Qed.

Lemma RefMath_sin_odd x : RefMath.sin (- x) = - RefMath.sin x.
Proof.
  unfold RefMath.sin. rewrite eqb_opp_0, is_nan_opp, is_infinity_opp.
  destruct (x =? 0) eqn:H0; [reflexivity |].
  destruct (is_nan x) eqn:Hn; [reflexivity |]. cbn [orb].
  destruct (is_infinity x); [reflexivity |]. cbv zeta.
  rewrite (ltb_opp_0 x H0 Hn), opp_involutive.
  destruct (x <? 0); cbn [negb];
    match goal with |- context [RefMath.reduceThreshold <=? ?ax] =>
      destruct (RefMath.reduceThreshold <=? ax); [reflexivity |];
      destruct (RefMath.reduce ax) as [j z]
    end;
    destruct (3 <? Z.land j 7)%Z; cbn [negb];
    rewrite ?opp_involutive; reflexivity.
Qed.

Lemma RefMath_cos_even x : RefMath.cos (- x) = RefMath.cos x.
Proof.
  unfold RefMath.cos. rewrite is_nan_opp, is_infinity_opp, abs_opp. reflexivity.
Qed.

Lemma RefMath_sign_symmetric : sign_symmetric RefMath.lib.
Proof.
  split; [exact RefMath_sin_odd | split; [reflexivity | exact RefMath_cos_even]].
Qed.


Section Mirror.
Context (M : MathLib) (Hsym : sign_symmetric M).

Lemma Sin_zero x : is_zero x = true -> is_zero (Sin M x) = true.
Proof.
  destruct Hsym as [Hodd [H0 _]].
  intros Hx. apply is_zero_Prim2SF in Hx. destruct Hx as [s Hx].
  apply SF_zero_inj in Hx. subst x. destruct s.
  - change neg_zero with (- 0). rewrite Hodd, H0. reflexivity.
  - change zero with 0. rewrite H0. reflexivity.
Qed.

Lemma mirrored_Sin x y : mirrored x y -> mirrored (Sin M x) (Sin M y).
Proof.
  destruct Hsym as [Hodd _].
  intros [-> | [-> Hz]].
  - left. apply Hodd.
  - right. split; [reflexivity | apply Sin_zero, Hz].
Qed.

Lemma mirrored_Cos x y : mirrored x y -> Cos M y = Cos M x.
Proof.
  destruct Hsym as [_ [_ Heven]].
  intros [-> | [-> _]]; [apply Heven | reflexivity].
Qed.

Variables sinU1 cosU1 sinU2 cosU2 : float.

Lemma iteration_mirror (L L' Lambda Lambda' : float) :
  mirrored L L' -> mirrored Lambda Lambda' ->
  match iteration M sinU1 cosU1 sinU2 cosU2 L Lambda,
        iteration M sinU1 cosU1 sinU2 cosU2 L' Lambda' with
  | Return d, Return d' => d' = d
  | Next l, Next l' => mirrored l l'
  | _, _ => False
  end.
Proof.
  intros HL HLam.
  pose proof (mirrored_Sin _ _ HLam) as Hs.
  pose proof (mirrored_Cos _ _ HLam) as Hc.
  unfold iteration. cbv zeta. rewrite Hc.
  rewrite (mirrored_square _ _ (mirrored_mul_r _ _ cosU2 Hs)).
  match goal with |- context [Sqrt ?e] => set (sinSigma := Sqrt e) end.
  destruct (sinSigma =? 0.0); [reflexivity |].
  assert (HsA : mirrored (cosU1 * cosU2 * Sin M Lambda / sinSigma)
                         (cosU1 * cosU2 * Sin M Lambda' / sinSigma))
    by (apply mirrored_div, mirrored_mul_r, Hs).
  set (sinAlpha := cosU1 * cosU2 * Sin M Lambda / sinSigma) in *.
  set (sinAlpha' := cosU1 * cosU2 * Sin M Lambda' / sinSigma) in *.
  rewrite (mirrored_square _ _ HsA).
  set (cosSqAlpha := 1.0 - square sinAlpha).
  match goal with |- context [if neqb cosSqAlpha 0 then ?u else ?v] =>
    set (cos2SigmaM := if neqb cosSqAlpha 0 then u else v) end.
  match goal with |- context [L + ?k * sinAlpha * ?w] =>
    set (K := k); set (W := w) end.
  assert (HN : mirrored (L + K * sinAlpha * W) (L' + K * sinAlpha' * W))
    by (apply mirrored_add; [exact HL | apply mirrored_mul_l, mirrored_mul_r, HsA]).
  set (N := L + K * sinAlpha * W) in *.
  set (N' := L' + K * sinAlpha' * W) in *.
  unfold Abs. rewrite (mirrored_abs _ _ (mirrored_sub _ _ _ _ HN HLam)).
  destruct (abs (N - Lambda) <? ConvergenceThreshold); [reflexivity | exact HN].
Qed.

Lemma loop_mirror (n : nat) :
  forall L L' Lambda Lambda',
    mirrored L L' -> mirrored Lambda Lambda' ->
    loop M sinU1 cosU1 sinU2 cosU2 L' n Lambda'
    = loop M sinU1 cosU1 sinU2 cosU2 L n Lambda.
Proof.
  induction n as [| n IH]; intros L L' Lambda Lambda' HL HLam; simpl.
  - reflexivity.
  - pose proof (iteration_mirror L L' Lambda Lambda' HL HLam) as H.
    destruct (iteration M sinU1 cosU1 sinU2 cosU2 L Lambda),
             (iteration M sinU1 cosU1 sinU2 cosU2 L' Lambda');
      try contradiction.
    + exact H.
    + apply (IH L L'); assumption.
Qed.

End Mirror.

Lemma L_of_mirror p q : mirrored (L_of p q) (L_of q p).
Proof.
  unfold L_of, radians. apply mirrored_div, mirrored_mul_l, sub_swap.
Qed.

Lemma coincident_sym p q : coincident p q = coincident q p.
Proof. unfold coincident. rewrite (eqb_sym (Latitude p)), (eqb_sym (Longitude p)). reflexivity. Qed.

(** C5, as the code has it. For two points of the same latitude, and a math
    package whose [Sin] is odd with [Sin(0) = 0] and whose [Cos] is even,
    [Inverse(P, Q)] and [Inverse(Q, P)] are the same [Distance]. *)
Theorem Inverse_symmetric_same_latitude (M : MathLib) (p q : LatLng) :
  sign_symmetric M ->
  Latitude p = Latitude q ->
  Inverse M p q = Inverse M q p.
Proof.
  intros Hsym Hlat. unfold Inverse. rewrite (coincident_sym q p).
  destruct (coincident p q); [reflexivity |]. cbv zeta.
  assert (HU : U_of M q = U_of M p) by (unfold U_of; rewrite Hlat; reflexivity).
  rewrite HU. symmetry.
  apply (loop_mirror M Hsym); apply L_of_mirror.
Qed.

Lemma Inverse_symmetric_same_latitude_witness :
  sign_symmetric RefMath.lib
  /\ Latitude (pt 42.05 39.09) = Latitude (pt 42.05 3.9)
  /\ Inverse RefMath.lib (pt 42.05 39.09) (pt 42.05 3.9)
     = Inverse RefMath.lib (pt 42.05 3.9) (pt 42.05 39.09).
Proof.
  split; [exact RefMath_sign_symmetric | split; [reflexivity |]].
  apply (Inverse_symmetric_same_latitude RefMath.lib
           (pt 42.05 39.09) (pt 42.05 3.9)).
  - exact RefMath_sign_symmetric.
  - reflexivity.
Defined.

(** C5, as stated, fails: across latitudes the two directions can round to
    adjacent millimetres. *)
Lemma Inverse_not_symmetric :
  Inverse RefMath.lib (pt 42.05 39.09) (pt (-87.27) 3.9) = 14407904.818
  /\ Inverse RefMath.lib (pt (-87.27) 3.9) (pt 42.05 39.09) = 14407904.817
  /\ Inverse RefMath.lib (pt 42.05 39.09) (pt (-87.27) 3.9)
     <> Inverse RefMath.lib (pt (-87.27) 3.9) (pt 42.05 39.09).
Proof.
  assert (H1 : Inverse RefMath.lib (pt 42.05 39.09) (pt (-87.27) 3.9)
               = 14407904.818) by (vm_compute; reflexivity).
  assert (H2 : Inverse RefMath.lib (pt (-87.27) 3.9) (pt 42.05 39.09)
               = 14407904.817) by (vm_compute; reflexivity).
  split; [exact H1 | split; [exact H2 |]].
  rewrite H1, H2. intros E.
  assert (E2 : (14407904.818 =? 14407904.818) = (14407904.817 =? 14407904.818))
    by (rewrite E; reflexivity).
  vm_compute in E2. discriminate E2.
Qed.

(** * Further properties *)

(** ** Reflections of the two points *)

(** What [Inverse] computes from the longitudes is the guard and [L], and a
    change of the sign of [L] does not show in the result. *)
Lemma Inverse_mirrored_L (M : MathLib) (p q p' q' : LatLng) :
  sign_symmetric M ->
  Latitude p' = Latitude p -> Latitude q' = Latitude q ->
  coincident p' q' = coincident p q ->
  mirrored (L_of p q) (L_of p' q') ->
  Inverse M p' q' = Inverse M p q.
Proof.
  intros Hsym Hp Hq Hc HL. unfold Inverse. rewrite Hc.
  destruct (coincident p q); [reflexivity |]. cbv zeta.
  unfold U_of. rewrite Hp, Hq.
  apply (loop_mirror M Hsym); exact HL.
Qed.

Lemma eqb_opp_opp x y : (- x =? - y) = (x =? y).
Proof.
  rewrite !FloatAxioms.eqb_spec, !opp_spec. unfold SFeqb.
  destruct (Prim2SF x) as [sx|sx| |sx mx ex], (Prim2SF y) as [sy|sy| |sy my ey];
    simpl; try reflexivity; try (destruct sx, sy; reflexivity).
  destruct sx, sy; simpl; try reflexivity;
    destruct (ex ?= ey)%Z; try reflexivity;
    destruct (Pos.compare_cont Eq mx my); reflexivity.
Qed.

(** X2. Exchanging the longitudes of the two points (the latitudes staying
    where they are) does not change the [Distance], bit for bit, for a math
    package whose [Sin] is odd with [Sin(0) = 0] and whose [Cos] is even. *)
Theorem Inverse_longitudes_swapped (M : MathLib) (lat1 lon1 lat2 lon2 : float) :
  sign_symmetric M ->
  Inverse M (mkLatLng lat1 lon2) (mkLatLng lat2 lon1)
  = Inverse M (mkLatLng lat1 lon1) (mkLatLng lat2 lon2).
Proof.
  intros Hsym. apply (Inverse_mirrored_L M); try reflexivity; try exact Hsym.
  - unfold coincident. cbn [Latitude Longitude].
    rewrite (eqb_sym lon2 lon1). reflexivity.
  - unfold L_of, radians. cbn [Latitude Longitude].
    apply mirrored_div, mirrored_mul_l, sub_swap.
Qed.

Lemma Inverse_longitudes_swapped_witness :
  sign_symmetric RefMath.lib
  /\ Inverse RefMath.lib (mkLatLng 42.05 3.9) (mkLatLng (-87.27) 39.09)
     = Inverse RefMath.lib (mkLatLng 42.05 39.09) (mkLatLng (-87.27) 3.9).
Proof.
  split; [exact RefMath_sign_symmetric |].
  apply (Inverse_longitudes_swapped RefMath.lib 42.05 39.09 (-87.27) 3.9).
  exact RefMath_sign_symmetric.
Defined.

(** X3. Reflecting both points in the prime meridian (both longitudes
    negated) does not change the [Distance], under the same assumption. *)
Theorem Inverse_longitudes_negated (M : MathLib) (lat1 lon1 lat2 lon2 : float) :
  sign_symmetric M ->
  Inverse M (mkLatLng lat1 (- lon1)) (mkLatLng lat2 (- lon2))
  = Inverse M (mkLatLng lat1 lon1) (mkLatLng lat2 lon2).
Proof.
  intros Hsym. apply (Inverse_mirrored_L M); try reflexivity; try exact Hsym.
  - unfold coincident. cbn [Latitude Longitude]. rewrite eqb_opp_opp.
    reflexivity.
  - unfold L_of, radians. cbn [Latitude Longitude].
    apply mirrored_div, mirrored_mul_l.
    rewrite !sub_add_opp. apply add_opp_opp.
Qed.

Lemma Inverse_longitudes_negated_witness :
  sign_symmetric RefMath.lib
  /\ Inverse RefMath.lib (mkLatLng 42.3541165 (- -71.0693514))
                         (mkLatLng 40.7791472 (- -73.9680804))
     = Inverse RefMath.lib (mkLatLng 42.3541165 (-71.0693514))
                           (mkLatLng 40.7791472 (-73.9680804)).
Proof.
  split; [exact RefMath_sign_symmetric |].
  apply (Inverse_longitudes_negated RefMath.lib
           42.3541165 (-71.0693514) 40.7791472 (-73.9680804)).
  exact RefMath_sign_symmetric.
Defined.

Section Equator.

Context (M : MathLib).

(** [sinU1] and [sinU2] enter the body through [sinU1 * sinU2] and through
    the second square under the root. *)
Lemma iteration_equator (sinU1 cosU1 sinU2 cosU2 L Lambda : float) :
  iteration M (- sinU1) cosU1 (- sinU2) cosU2 L Lambda
  = iteration M sinU1 cosU1 sinU2 cosU2 L Lambda.
Proof.
  unfold iteration. cbv zeta.
  rewrite !mul_opp_l, !mul_opp_r, !mul_opp_l, !opp_involutive.
  assert (Hm : mirrored (cosU1 * sinU2 - sinU1 * cosU2 * Cos M Lambda)
                        (- (cosU1 * sinU2) - - (sinU1 * cosU2 * Cos M Lambda))).
  { rewrite !sub_add_opp. apply add_opp_opp. }
  rewrite (mirrored_square _ _ Hm).
  reflexivity.
Qed.

Lemma loop_equator (sinU1 cosU1 sinU2 cosU2 L : float) (n : nat) :
  forall Lambda,
    loop M (- sinU1) cosU1 (- sinU2) cosU2 L n Lambda
    = loop M sinU1 cosU1 sinU2 cosU2 L n Lambda.
Proof.
  induction n as [| n IH]; intros Lambda; simpl; [reflexivity |].
  rewrite iteration_equator.
  destruct (iteration M sinU1 cosU1 sinU2 cosU2 L Lambda);
    [reflexivity | apply IH].
Qed.

End Equator.

Lemma radians_opp x : radians (- x) = - radians x.
Proof. unfold radians. rewrite mul_opp_l, div_opp_l. reflexivity. Qed.

(** X4. Reflecting both points in the equator (both latitudes negated) does
    not change the [Distance], bit for bit, for a math package whose [Sin],
    [Tan] and [Atan] are odd and whose [Cos] is even. *)
Theorem Inverse_latitudes_negated (M : MathLib) (lat1 lon1 lat2 lon2 : float) :
  sign_symmetric M -> odd_Tan_Atan M ->
  Inverse M (mkLatLng (- lat1) lon1) (mkLatLng (- lat2) lon2)
  = Inverse M (mkLatLng lat1 lon1) (mkLatLng lat2 lon2).
Proof.
  intros [Hsin [_ Hcos]] [Htan Hatan]. unfold Inverse, coincident, U_of, L_of.
  cbn [Latitude Longitude]. rewrite eqb_opp_opp.
  destruct ((lat1 =? lat2) && (lon1 =? lon2)); [reflexivity |]. cbv zeta.
  rewrite !radians_opp, !Htan, !mul_opp_r, !Hatan, !Hsin, !Hcos.
  apply loop_equator.
Qed.

Lemma RefMath_tan_odd x : RefMath.tan (- x) = - RefMath.tan x.
Proof.
  unfold RefMath.tan. rewrite eqb_opp_0, is_nan_opp, is_infinity_opp.
  destruct (x =? 0) eqn:H0; [reflexivity |].
  destruct (is_nan x) eqn:Hn; [reflexivity |]. cbn [orb].
  destruct (is_infinity x); [reflexivity |]. cbv zeta.
  rewrite (ltb_opp_0 x H0 Hn), opp_involutive.
  destruct (x <? 0); cbn [negb];
    match goal with |- context [RefMath.reduceThreshold <=? ?ax] =>
      destruct (RefMath.reduceThreshold <=? ax); [reflexivity |];
      destruct (RefMath.reduce ax) as [j z]
    end;
    rewrite ?opp_involutive; reflexivity.
Qed.

Lemma ltb_0_opp x :
  (x =? 0) = false -> is_nan x = false -> (0 <? - x) = negb (0 <? x).
Proof.
  unfold is_nan. rewrite !FloatAxioms.eqb_spec, !ltb_spec, opp_spec.
  change (Prim2SF 0) with (S754_zero false).
  destruct (Prim2SF x) as [s | s | | s m e]; simpl; intros H1 H2;
    try discriminate; destruct s; reflexivity.
Qed.

Lemma RefMath_atan_odd x : RefMath.atan (- x) = - RefMath.atan x.
Proof.
  unfold RefMath.atan. rewrite eqb_opp_0.
  destruct (x =? 0) eqn:H0; [reflexivity |].
  destruct (is_nan x) eqn:Hn.
  - apply is_nan_eq in Hn. subst x. vm_compute. reflexivity.
  - rewrite (ltb_0_opp x H0 Hn), opp_involutive.
    destruct (0 <? x); cbn [negb]; rewrite ?opp_involutive; reflexivity.
Qed.

Lemma RefMath_odd_Tan_Atan : odd_Tan_Atan RefMath.lib.
Proof. split; [exact RefMath_tan_odd | exact RefMath_atan_odd]. Qed.

Lemma Inverse_latitudes_negated_witness :
  sign_symmetric RefMath.lib /\ odd_Tan_Atan RefMath.lib
  /\ Inverse RefMath.lib (mkLatLng (- 42.05) 39.09) (mkLatLng (- -87.27) 3.9)
     = Inverse RefMath.lib (mkLatLng 42.05 39.09) (mkLatLng (-87.27) 3.9).
Proof.
  split; [exact RefMath_sign_symmetric |].
  split; [exact RefMath_odd_Tan_Atan |].
  apply (Inverse_latitudes_negated RefMath.lib 42.05 39.09 (-87.27) 3.9).
  - exact RefMath_sign_symmetric.
  - exact RefMath_odd_Tan_Atan.
Defined.

Example reflections_Boston_NewYork :
  Inverse RefMath.lib (pt 42.3541165 71.0693514) (pt 40.7791472 73.9680804)
  = 298396.057
  /\ Inverse RefMath.lib (pt (-42.3541165) (-71.0693514))
                         (pt (-40.7791472) (-73.9680804)) = 298396.057
  /\ Inverse RefMath.lib (pt 42.3541165 (-73.9680804))
                         (pt 40.7791472 (-71.0693514)) = 298396.057.
Proof. repeat split; vm_compute; reflexivity. Qed.

(** X5. [Inverse] reads the two longitudes through the guard and through
    the [float64] difference [point2.Longitude - point1.Longitude] only: two
    pairs of points with the same latitudes, the same difference and the same
    answer of the guard get the same [Distance], whatever the math package. *)
Theorem Inverse_longitude_difference (M : MathLib) (p q p' q' : LatLng) :
  Latitude p' = Latitude p -> Latitude q' = Latitude q ->
  Longitude q' - Longitude p' = Longitude q - Longitude p ->
  coincident p' q' = coincident p q ->
  Inverse M p' q' = Inverse M p q.
Proof.
  intros Hp Hq HL Hc. unfold Inverse, U_of, L_of. rewrite Hc, Hp, Hq, HL.
  reflexivity.
Qed.

Lemma Inverse_longitude_difference_witness :
  Latitude (pt 10 30) = Latitude (pt 10 20)
  /\ Latitude (pt 30 50) = Latitude (pt 30 40)
  /\ Longitude (pt 30 50) - Longitude (pt 10 30)
     = Longitude (pt 30 40) - Longitude (pt 10 20)
  /\ coincident (pt 10 30) (pt 30 50) = coincident (pt 10 20) (pt 30 40)
  /\ Inverse RefMath.lib (pt 10 30) (pt 30 50)
     = Inverse RefMath.lib (pt 10 20) (pt 30 40).
Proof.
  repeat (split; [reflexivity |]).
  apply (Inverse_longitude_difference RefMath.lib
           (pt 10 20) (pt 30 40) (pt 10 30) (pt 30 50)); reflexivity.
Defined.

(** ** Infinite coordinates *)

Lemma is_infinity_cases x :
  is_infinity x = true -> x = infinity \/ x = neg_infinity.
Proof.
  unfold is_infinity. rewrite FloatAxioms.eqb_spec, abs_spec. intros H.
  destruct (Prim2SF x) as [s | s | | s m e] eqn:E; try discriminate.
  destruct s; [right | left]; apply Prim2SF_inj; rewrite E; reflexivity.
Qed.

(** An infinite operand makes a difference infinite or NaN. *)
Lemma sub_infinite x y :
  is_infinity x = true \/ is_infinity y = true ->
  x - y = infinity \/ x - y = neg_infinity \/ x - y = nan.
Proof.
  assert (Hsf : forall z, Prim2SF z = S754_infinity false \/
                          Prim2SF z = S754_infinity true \/
                          Prim2SF z = S754_nan ->
                          z = infinity \/ z = neg_infinity \/ z = nan).
  { intros z [H | [H | H]]; [left | right; left | right; right];
      apply Prim2SF_inj; rewrite H; reflexivity. }
  intros H. apply Hsf. rewrite sub_spec.
  destruct H as [H | H]; apply is_infinity_cases in H;
    destruct H as [-> | ->];
    [ change (Prim2SF infinity) with (S754_infinity false)
    | change (Prim2SF neg_infinity) with (S754_infinity true)
    | change (Prim2SF infinity) with (S754_infinity false)
    | change (Prim2SF neg_infinity) with (S754_infinity true) ].
  all: match goal with
       | |- context [Prim2SF ?z] => destruct (Prim2SF z) as [s | s | | s m e]
       end; try destruct s; simpl; tauto.
Qed.

Section Infinite.

Context (M : MathLib) (Hinf : infinite_to_nan M).

Lemma U_of_infinite (point : LatLng) :
  is_infinity (Latitude point) = true -> U_of M point = nan.
Proof.
  destruct Hinf as [_ [_ [Ht1 Ht2]]].
  intros H. apply is_infinity_cases in H. unfold U_of.
  destruct H as [-> | ->].
  - change (radians infinity) with infinity. rewrite Ht1. nan_simpl.
    reflexivity.
  - change (radians neg_infinity) with neg_infinity. rewrite Ht2. nan_simpl.
    reflexivity.
Qed.

Lemma sinSigma_Lambda_infinite (sinU1 cosU1 sinU2 cosU2 Lambda : float) :
  Lambda = infinity \/ Lambda = neg_infinity \/ Lambda = nan ->
  sinSigma_of M sinU1 cosU1 sinU2 cosU2 Lambda = nan.
Proof.
  destruct Hinf as [Hs1 [Hs2 _]].
  intros [-> | [-> | ->]]; unfold sinSigma_of; rewrite ?Hs1, ?Hs2; nan_simpl;
    reflexivity.
Qed.

Lemma L_of_infinite (point1 point2 : LatLng) :
  is_infinity (Longitude point1) = true
  \/ is_infinity (Longitude point2) = true ->
  L_of point1 point2 = infinity \/ L_of point1 point2 = neg_infinity
  \/ L_of point1 point2 = nan.
Proof.
  intros H. unfold L_of.
  destruct (sub_infinite (Longitude point2) (Longitude point1))
    as [E | [E | E]]; [tauto | rewrite E .. ].
  - left. reflexivity.
  - right. left. reflexivity.
  - right. right. reflexivity.
Qed.

End Infinite.

(** X6. If a coordinate of either point is infinite and the guard does not
    take the two points for the same, [Inverse] returns the sentinel [-1.0]
    (with [Sin] and [Tan] NaN at the infinities, as Go documents):
    [radians] keeps the infinity, [U] or [sinLambda] is NaN, and no test of
    the loop succeeds. *)
Theorem Inverse_infinite (M : MathLib) (point1 point2 : LatLng) :
  infinite_to_nan M ->
  coincident point1 point2 = false ->
  is_infinity (Latitude point1) || is_infinity (Longitude point1)
  || is_infinity (Latitude point2) || is_infinity (Longitude point2) = true ->
  Inverse M point1 point2 = -1.0.
Proof.
  intros Hinf Hc H.
  unfold Inverse. rewrite Hc. cbv zeta.
  apply loop_nan. intros l Hl.
  repeat (apply orb_true_iff in H; destruct H as [H | H]).
  - rewrite (U_of_infinite M Hinf point1 H). nan_simpl. apply sinSigma_U1_nan.
  - apply (sinSigma_Lambda_infinite M Hinf).
    destruct Hl as [-> | ->]; [apply L_of_infinite; tauto | tauto].
  - rewrite (U_of_infinite M Hinf point2 H). nan_simpl. apply sinSigma_U2_nan.
  - apply (sinSigma_Lambda_infinite M Hinf).
    destruct Hl as [-> | ->]; [apply L_of_infinite; tauto | tauto].
Qed.

Lemma RefMath_infinite_to_nan : infinite_to_nan RefMath.lib.
Proof. repeat split; vm_compute; reflexivity. Qed.

Lemma Inverse_infinite_witness :
  infinite_to_nan RefMath.lib
  /\ coincident Boston (pt 40.7791472 infinity) = false
  /\ is_infinity (Latitude Boston) || is_infinity (Longitude Boston)
     || is_infinity (Latitude (pt 40.7791472 infinity))
     || is_infinity (Longitude (pt 40.7791472 infinity)) = true
  /\ Inverse RefMath.lib Boston (pt 40.7791472 infinity) = -1.0.
Proof.
  split; [exact RefMath_infinite_to_nan |].
  split; [reflexivity |]. split; [reflexivity |].
  apply (Inverse_infinite RefMath.lib Boston (pt 40.7791472 infinity)).
  - exact RefMath_infinite_to_nan.
  - reflexivity.
  - reflexivity.
Defined.

(** The guard comes first: a point with an infinite coordinate is at
    distance [0] of itself. *)
Example infinite_coincident :
  Inverse RefMath.lib (pt infinity 0) (pt infinity 0) = 0.0.
Proof. reflexivity. Qed.

(** ** NaN inside the loop *)

Section Reach.

Context (M : MathLib).
Variables sinU1 cosU1 sinU2 cosU2 L : float.

(** A machine that is still running after some steps has executed the body
    once per step, and the loop from the start is the loop from there with
    that many iterations fewer. *)
Lemma run_Running (fuel : nat) :
  forall (i : Z) (Lambda : float) (j : Z) (Lambda' : float),
    run M sinU1 cosU1 sinU2 cosU2 L fuel (Running i Lambda)
    = Running j Lambda' ->
    (j = i + Z.of_nat fuel)%Z
    /\ (fuel = O \/ j <= Z.of_nat MaxIterations)%Z
    /\ forall n, loop M sinU1 cosU1 sinU2 cosU2 L (fuel + n) Lambda
                 = loop M sinU1 cosU1 sinU2 cosU2 L n Lambda'.
Proof.
  induction fuel as [| fuel IH]; intros i Lambda j Lambda' H.
  - simpl in H. injection H as <- <-. repeat split; [lia | left; reflexivity].
  - cbn [run] in H. unfold for_step in H.
    destruct (i <? Z.of_nat MaxIterations)%Z eqn:Hlt;
      [| rewrite run_Done in H; discriminate].
    destruct (iteration M sinU1 cosU1 sinU2 cosU2 L Lambda) as [d | l] eqn:Hit;
      [rewrite run_Done in H; discriminate |].
    apply Z.ltb_lt in Hlt.
    destruct (IH _ _ _ _ H) as [Hj [Hb Hl]].
    split; [lia |]. split; [right; destruct Hb as [-> | Hb]; simpl in *; lia |].
    intros n. cbn [Nat.add loop]. rewrite Hit. apply Hl.
Qed.

End Reach.

(** X7. Once [Lambda] is NaN the call is lost: if the loop of
    [Inverse point1 point2] reaches, after any number of iterations, a state
    in which [Lambda] is NaN, then [Inverse] returns the sentinel [-1.0]
    (never NaN, never a distance). *)
Theorem Inverse_Lambda_nan (M : MathLib) (point1 point2 : LatLng)
    (steps : nat) (i : Z) :
  coincident point1 point2 = false ->
  loop_state M steps point1 point2 = Running i nan ->
  Inverse M point1 point2 = -1.0.
Proof.
  intros Hc Hrun. unfold Inverse. rewrite Hc. cbv zeta.
  unfold loop_state in Hrun. cbv zeta in Hrun.
  destruct (run_Running M _ _ _ _ _ _ _ _ _ _ Hrun) as [Hi [Hb Hl]].
  assert (Hle : (steps <= MaxIterations)%nat).
  { destruct Hb as [-> | Hb]; lia. }
  replace MaxIterations with (steps + (MaxIterations - steps))%nat at 1 by lia.
  rewrite Hl. apply loop_nan.
  intros l [-> | ->]; apply sinSigma_Lambda_nan.
Qed.

(** A latitude of [1e308] degrees: [radians] overflows, [U1] is NaN and so
    is [Lambda] after the first iteration. *)
Lemma Inverse_Lambda_nan_witness :
  coincident (pt 1e308 0) (pt 0 0) = false
  /\ loop_state RefMath.lib 1 (pt 1e308 0) (pt 0 0) = Running 1 nan
  /\ Inverse RefMath.lib (pt 1e308 0) (pt 0 0) = -1.0.
Proof.
  split; [reflexivity |].
  assert (H : loop_state RefMath.lib 1 (pt 1e308 0) (pt 0 0) = Running 1 nan)
    by (vm_compute; reflexivity).
  split; [exact H |].
  apply (Inverse_Lambda_nan RefMath.lib (pt 1e308 0) (pt 0 0) 1 1%Z).
  - reflexivity.
  - exact H.
Defined.

(** ** Points of the same meridian *)

Lemma zero_or_nan_mul_l x c : zero_or_nan x -> zero_or_nan (x * c).
Proof.
  intros [H | ->]; [apply mul_zero_l, H | right; apply mul_nan_l].
Qed.

Lemma zero_or_nan_mul_r x c : zero_or_nan x -> zero_or_nan (c * x).
Proof.
  intros [H | ->]; [apply mul_zero_r, H | right; apply mul_nan_r].
Qed.

Lemma zero_or_nan_div x c : zero_or_nan x -> zero_or_nan (x / c).
Proof.
  intros [H | ->]; [apply div_zero_l, H | right; apply div_nan_l].
Qed.

Lemma zero_or_nan_add x y :
  is_zero x = true -> zero_or_nan y -> zero_or_nan (x + y).
Proof.
  intros Hx [H | ->];
    [left; apply add_zeros; assumption | right; apply add_nan_r].
Qed.

Lemma zero_cases x : is_zero x = true -> x = 0 \/ x = neg_zero.
Proof.
  intros H. apply is_zero_Prim2SF in H. destruct H as [s H].
  apply SF_zero_inj in H. destruct s; auto.
Qed.

Lemma zeros_converged x y :
  is_zero x = true -> is_zero y = true ->
  (Abs (x - y) <? ConvergenceThreshold) = true.
Proof.
  intros Hx Hy. apply zero_cases in Hx, Hy.
  destruct Hx as [-> | ->], Hy as [-> | ->]; reflexivity.
Qed.

(** Equal floats differ by zero, or by NaN when they are the same
    infinity. *)
Lemma eqb_sub x y : (x =? y) = true -> zero_or_nan (y - x).
Proof.
  rewrite FloatAxioms.eqb_spec. unfold SFeqb. intros H.
  assert (Hsf : (exists s, Prim2SF (y - x) = S754_zero s)
                \/ Prim2SF (y - x) = S754_nan).
  { rewrite sub_spec. unfold SF64sub.
    destruct (Prim2SF x) as [sx | sx | | sx mx ex],
             (Prim2SF y) as [sy | sy | | sy my ey];
      simpl in H; try discriminate; simpl;
      try (destruct sx; discriminate); try (destruct sy; discriminate).
    - left. destruct sx, sy; eexists; reflexivity.
    - right. destruct sx, sy; try discriminate; reflexivity.
    - left. exists false.
      destruct sx, sy; try discriminate;
        destruct (ex ?= ey)%Z eqn:Ec; try discriminate;
        apply Z.compare_eq in Ec; subst ey;
        change (Pos.compare_cont Eq mx my) with (mx ?= my)%positive in H;
        destruct (mx ?= my)%positive eqn:Em; try discriminate;
        apply Pos.compare_eq in Em; subst my;
        rewrite Z.sub_diag; reflexivity. }
  destruct Hsf as [[s Hs] | Hn].
  - left. apply is_zero_Prim2SF. exists s. exact Hs.
  - right. apply Prim2SF_inj. rewrite Hn. reflexivity.
Qed.

Lemma radians_zero_or_nan x : zero_or_nan x -> zero_or_nan (radians x).
Proof.
  intros H. unfold radians. apply zero_or_nan_div, zero_or_nan_mul_l, H.
Qed.

Lemma loop_S (M : MathLib) (sinU1 cosU1 sinU2 cosU2 L : float) (n : nat)
    (Lambda : float) :
  loop M sinU1 cosU1 sinU2 cosU2 L (S n) Lambda
  = match iteration M sinU1 cosU1 sinU2 cosU2 L Lambda with
    | Return d => d
    | Next Lambda' => loop M sinU1 cosU1 sinU2 cosU2 L n Lambda'
    end.
Proof. reflexivity. Qed.

Section Meridian.
Context (M : MathLib) (Hsym : sign_symmetric M).
Variables sinU1 cosU1 sinU2 cosU2 : float.

Lemma iteration_meridian (L : float) :
  is_zero L = true ->
  match iteration M sinU1 cosU1 sinU2 cosU2 L L with
  | Return _ => True
  | Next Lambda => Lambda = nan
  end.
Proof.
  intros HL.
  pose proof (Sin_zero M Hsym L HL) as Hs.
  unfold iteration. cbv zeta.
  match goal with |- context [Sqrt ?e =? 0.0] => set (sinSigma := Sqrt e) end.
  destruct (sinSigma =? 0.0); [exact I |].
  assert (HsA : zero_or_nan (cosU1 * cosU2 * Sin M L / sinSigma))
    by (apply zero_or_nan_div, zero_or_nan_mul_r; left; exact Hs).
  set (sinAlpha := cosU1 * cosU2 * Sin M L / sinSigma) in *.
  match goal with |- context [L + ?k * sinAlpha * ?w] =>
    set (K := k); set (W := w) end.
  assert (HN : zero_or_nan (L + K * sinAlpha * W))
    by (apply zero_or_nan_add; [exact HL |];
        apply zero_or_nan_mul_l, zero_or_nan_mul_r, HsA).
  destruct HN as [HN | HN].
  - rewrite (zeros_converged _ _ HN HL). exact I.
  - rewrite HN. rewrite sub_nan_l. reflexivity.
Qed.

End Meridian.



Example same_meridian_first_iteration :
  Inverse_run RefMath.lib 1 (pt 0 0) (pt 1 0) = Some (0%Z, 110574.389).
Proof. vm_compute. reflexivity. Qed.

(** ** Finite values at convergence *)

Lemma finite_add x y : finite (x + y) -> finite x /\ finite y.
Proof.
  unfold finite. rewrite add_spec. unfold SF64add.
  destruct (Prim2SF x) as [sx | sx | | sx mx ex],
           (Prim2SF y) as [sy | sy | | sy my ey];
    simpl; try tauto; destruct sx, sy; simpl; tauto.
Qed.

Lemma finite_sub x y : finite (x - y) -> finite x /\ finite y.
Proof.
  unfold finite. rewrite sub_spec. unfold SF64sub.
  destruct (Prim2SF x) as [sx | sx | | sx mx ex],
           (Prim2SF y) as [sy | sy | | sy my ey];
    simpl; try tauto; destruct sx, sy; simpl; tauto.
Qed.

Lemma finite_mul x y : finite (x * y) -> finite x /\ finite y.
Proof.
  unfold finite. rewrite mul_spec. unfold SF64mul.
  destruct (Prim2SF x) as [sx | sx | | sx mx ex],
           (Prim2SF y) as [sy | sy | | sy my ey];
    simpl; tauto.
Qed.

Lemma finite_div x y : finite (x / y) -> finite x.
Proof.
  unfold finite. rewrite div_spec. unfold SF64div.
  destruct (Prim2SF x) as [sx | sx | | sx mx ex],
           (Prim2SF y) as [sy | sy | | sy my ey];
    simpl; tauto.
Qed.

Lemma finite_square x : finite (square x) -> finite x.
Proof. intros H. apply finite_mul in H. tauto. Qed.

Lemma finite_Sqrt x : finite (Sqrt x) -> finite x.
Proof.
  unfold finite, Sqrt. rewrite sqrt_spec. unfold SF64sqrt.
  destruct (Prim2SF x) as [sx | sx | | sx mx ex]; simpl; try tauto.
  destruct sx; simpl; tauto.
Qed.

Lemma finite_converged d :
  (Abs d <? ConvergenceThreshold) = true -> finite d.
Proof.
  unfold finite, Abs. rewrite ltb_spec, abs_spec.
  destruct (Prim2SF d) as [sx | sx | | sx mx ex]; simpl; try tauto;
    discriminate.
Qed.

Lemma finite_is_finite x : finite x -> is_finite x = true.
Proof.
  unfold finite, is_finite, is_nan, is_infinity.
  rewrite !FloatAxioms.eqb_spec, abs_spec.
  destruct (Prim2SF x) as [sx | sx | | sx mx ex]; simpl; try tauto; intros _.
  - unfold SFeqb. simpl. rewrite Z.compare_refl, Pos.compare_cont_refl.
    destruct sx; reflexivity.
Qed.

Ltac finite_split :=
  repeat match goal with
  | H : finite (_ + _) |- _ => apply finite_add in H; destruct H
  | H : finite (_ - _) |- _ => apply finite_sub in H; destruct H
  | H : finite (_ * _) |- _ => apply finite_mul in H; destruct H
  | H : finite (_ / _) |- _ => apply finite_div in H
  | H : finite (square _) |- _ => apply finite_square in H
  | H : finite (Sqrt _) |- _ => apply finite_Sqrt in H
  end.

(** X9. The convergence test succeeds on finite numbers only: when an
    execution of the loop body returns past the test of line 100, that is
    through the convergence branch of lines 113-123, then [L], the [Lambda]
    it started from, [sinU1], [cosU1], [sinU2], [cosU2], [sinLambda],
    [cosLambda] and [sinSigma] are all finite (no NaN, no infinity). *)
Theorem converged_finite (M : MathLib)
    (sinU1 cosU1 sinU2 cosU2 L Lambda : float) (d : Distance) :
  iteration M sinU1 cosU1 sinU2 cosU2 L Lambda = Return d ->
  (sinSigma_of M sinU1 cosU1 sinU2 cosU2 Lambda =? 0.0) = false ->
  Forall (fun x => is_finite x = true)
         [L; Lambda; sinU1; cosU1; sinU2; cosU2; Sin M Lambda; Cos M Lambda;
          sinSigma_of M sinU1 cosU1 sinU2 cosU2 Lambda].
Proof.
  unfold iteration, sinSigma_of. cbv zeta. intros Hit H0. rewrite H0 in Hit.
  match type of Hit with
  | (if Abs (?N - _) <? _ then _ else _) = _ =>
      destruct (Abs (N - Lambda) <? ConvergenceThreshold) eqn:Hc;
        [| discriminate]
  end.
  clear Hit. apply finite_converged in Hc.
  apply finite_sub in Hc. destruct Hc as [HN HLam].
  apply finite_add in HN. destruct HN as [HL HT].
  apply finite_mul in HT. destruct HT as [HK HW].
  apply finite_add in HW. destruct HW as [Hsigma HQ].
  apply finite_mul in HQ. destruct HQ as [HCs _].
  apply finite_mul in HCs. destruct HCs as [_ HsS].
  apply finite_is_finite in HLam, HL.
  pose proof (finite_is_finite _ HsS) as HS.
  finite_split.
  repeat constructor; try assumption; apply finite_is_finite; assumption.
Qed.

Lemma converged_finite_witness :
  let sinU1 := Sin RefMath.lib (U_of RefMath.lib (pt 0 0)) in
  let cosU1 := Cos RefMath.lib (U_of RefMath.lib (pt 0 0)) in
  let sinU2 := Sin RefMath.lib (U_of RefMath.lib (pt 1 0)) in
  let cosU2 := Cos RefMath.lib (U_of RefMath.lib (pt 1 0)) in
  iteration RefMath.lib sinU1 cosU1 sinU2 cosU2 0 0 = Return 110574.389
  /\ (sinSigma_of RefMath.lib sinU1 cosU1 sinU2 cosU2 0 =? 0.0) = false
  /\ Forall (fun x => is_finite x = true)
       [0; 0; sinU1; cosU1; sinU2; cosU2;
        Sin RefMath.lib 0; Cos RefMath.lib 0;
        sinSigma_of RefMath.lib sinU1 cosU1 sinU2 cosU2 0].
Proof.
  cbv zeta.
  assert (H : iteration RefMath.lib
                (Sin RefMath.lib (U_of RefMath.lib (pt 0 0)))
                (Cos RefMath.lib (U_of RefMath.lib (pt 0 0)))
                (Sin RefMath.lib (U_of RefMath.lib (pt 1 0)))
                (Cos RefMath.lib (U_of RefMath.lib (pt 1 0))) 0 0
              = Return 110574.389)
    by (vm_compute; reflexivity).
  split; [exact H | split; [vm_compute; reflexivity |]].
  apply (converged_finite RefMath.lib _ _ _ _ 0 0 110574.389 H).
  vm_compute. reflexivity.
Defined.

(** ** Signs *)

Lemma binary_round_aux_signed s m e l :
  SFsigned s (binary_round_aux prec emax s m e l).
Proof.
  unfold binary_round_aux.
  destruct (shr_fexp prec emax m e l) as [mrs' e'].
  destruct (shr_fexp prec emax _ e' loc_Exact) as [mrs'' e''].
  destruct (shr_m mrs''); [reflexivity | | exact I].
  destruct (e'' <=? emax - prec)%Z; reflexivity.
Qed.

Lemma binary_round_signed s m e : SFsigned s (binary_round prec emax s m e).
Proof.
  unfold binary_round.
  destruct (shl_align m e _) as [mz ez]. apply binary_round_aux_signed.
Qed.

Lemma SFsigned_nonneg r : SFsigned false r -> SFnonneg r.
Proof. destruct r; simpl; auto. Qed.

Lemma SFsigned_nonpos r : SFsigned true r -> SFnonpos r.
Proof. destruct r; simpl; auto. Qed.

Lemma SFdiv_signed x s m e :
  SFsigned s x -> SFsigned s (SFdiv prec emax x (S754_finite false m e)).
Proof.
  destruct x as [sx | sx | | sx mx ex]; simpl; intros H; try exact I;
    try (subst; destruct s; reflexivity).
  destruct (SFdiv_core_binary prec emax (Z.pos mx) ex (Z.pos m) e)
    as [[mz ez] lz].
  subst. rewrite xorb_false_r. apply binary_round_aux_signed.
Qed.

(** Division by a positive finite constant keeps strict signs. *)
Lemma div_positive_sign (d c : float) (m : positive) (e : Z) :
  Prim2SF c = S754_finite false m e ->
  ((d / c <? 0) = true -> (d <? 0) = true)
  /\ ((0 <? d / c) = true -> (0 <? d) = true).
Proof.
  intros Hc. rewrite !ltb_spec, div_spec, Hc.
  change (Prim2SF 0) with (S754_zero false).
  destruct (Prim2SF d) as [sx | sx | | sx mx ex] eqn:Ed.
  - simpl. split; discriminate.
  - simpl. rewrite xorb_false_r. split; intros H; exact H.
  - simpl. split; discriminate.
  - pose proof (SFdiv_signed (S754_finite sx mx ex) sx m e eq_refl) as Hs.
    unfold SF64div.
    destruct (SFdiv prec emax (S754_finite sx mx ex) (S754_finite false m e))
      as [s' | s' | | s' m' e']; simpl in Hs; subst; simpl;
      split; intros H; try discriminate; exact H.
Qed.

(** X10. No unit accessor changes the sign of a [Distance]: in every unit a
    negative number comes from a negative [Distance] only (the sentinel, for a
    result of [Inverse]) and a positive number from a positive one. *)
Theorem units_keep_sign (d : Distance) :
  let below_zero x := (x <? 0) = true in
  let above_zero x := (0 <? x) = true in
  Forall (fun unit : Distance -> float =>
            (below_zero (unit d) -> below_zero d)
            /\ (above_zero (unit d) -> above_zero d))
         [Metres; Meters; Kilometres; Kilometers; NauticalMiles; Miles; Feet].
Proof.
  cbv zeta.
  repeat (apply Forall_cons; [| ]); try apply Forall_nil.
  - split; intros H; exact H.
  - split; intros H; exact H.
  - unfold Kilometres. eapply div_positive_sign. reflexivity.
  - unfold Kilometers. eapply div_positive_sign. reflexivity.
  - unfold NauticalMiles. eapply div_positive_sign. reflexivity.
  - unfold Miles. eapply div_positive_sign. reflexivity.
  - unfold Feet. eapply div_positive_sign. reflexivity.
Qed.

(** The converse fails below the smallest subnormal: in kilometres the
    smallest negative [Distance] is [-0]. *)
Example Kilometres_underflow :
  (-0x1p-1074 <? 0) = true /\ (Kilometres (-0x1p-1074) <? 0) = false.
Proof. split; reflexivity. Qed.

Lemma square_nonneg x : SFnonneg (Prim2SF (square x)).
Proof.
  unfold square. rewrite mul_spec.
  destruct (Prim2SF x) as [s | s | | s m e]; simpl; try exact I.
  - apply xorb_nilpotent.
  - rewrite xorb_nilpotent. apply SFsigned_nonneg, binary_round_aux_signed.
Qed.

Lemma SFadd_nonneg x y :
  SFnonneg x -> SFnonneg y -> SFnonneg (SFadd prec emax x y).
Proof.
  destruct x as [sx | sx | | sx mx ex], y as [sy | sy | | sy my ey];
    simpl; intros Hx Hy; subst; try exact I; try reflexivity.
  - destruct sx, sy; exact I.
  - apply SFsigned_nonneg. apply binary_round_signed.
Qed.

Lemma SFsqrt_nonneg x : SFnonneg (SFsqrt prec emax x).
Proof.
  destruct x as [s | s | | s m e]; simpl; try exact I.
  - destruct s; simpl; auto.
  - destruct s; [exact I |].
    destruct (SFsqrt_core_binary prec emax (Z.pos m) e) as [[mz ez] lz].
    apply SFsigned_nonneg, binary_round_aux_signed.
Qed.

Lemma nonneg_leb x :
  SFnonneg (Prim2SF x) -> is_nan x = true \/ (0 <=? x) = true.
Proof.
  unfold is_nan. rewrite leb_spec, FloatAxioms.eqb_spec.
  change (Prim2SF 0) with (S754_zero false).
  destruct (Prim2SF x) as [s | s | | s m e]; simpl; intros H; subst; auto.
Qed.

Lemma nonneg_ltb x :
  SFnonneg (Prim2SF x) -> (x =? 0.0) = false ->
  is_nan x = true \/ (0 <? x) = true.
Proof.
  unfold is_nan. rewrite ltb_spec, !FloatAxioms.eqb_spec.
  change (Prim2SF 0.0) with (S754_zero false).
  change (Prim2SF 0) with (S754_zero false).
  destruct (Prim2SF x) as [s | s | | s m e]; simpl; intros H H0; subst; auto;
    discriminate.
Qed.

(** X11. [math.Sqrt] is never given a negative number: the sum of two
    squares of line 99 is NaN, zero or positive.  Its result [sinSigma] is
    never negative either: it is zero, and the body returns [0] at line 101,
    or it is NaN or strictly positive (and so are the first argument of
    [math.Atan2] and the divisor of line 105). *)
Theorem sinSigma_not_negative (M : MathLib)
    (sinU1 cosU1 sinU2 cosU2 L Lambda : float) :
  let r := radicand M sinU1 cosU1 sinU2 cosU2 Lambda in
  let sinSigma := Sqrt r in
  (is_nan r = true \/ (0 <=? r) = true)
  /\ (((sinSigma =? 0.0) = true
       /\ iteration M sinU1 cosU1 sinU2 cosU2 L Lambda = Return 0.0)
      \/ is_nan sinSigma = true \/ (0 <? sinSigma) = true).
Proof.
  cbv zeta. split.
  - apply nonneg_leb. unfold radicand. rewrite add_spec.
    apply SFadd_nonneg; apply square_nonneg.
  - unfold iteration, radicand. cbv zeta.
    match goal with |- context [Sqrt ?e =? 0.0] =>
      destruct (Sqrt e =? 0.0) eqn:E
    end.
    + left. split; reflexivity.
    + right. apply nonneg_ltb; [| exact E].
      unfold Sqrt. rewrite sqrt_spec. apply SFsqrt_nonneg.
Qed.

Example Boston_NewYork_sinSigma :
  Sqrt (radicand RefMath.lib
          (Sin RefMath.lib (U_of RefMath.lib Boston))
          (Cos RefMath.lib (U_of RefMath.lib Boston))
          (Sin RefMath.lib (U_of RefMath.lib NewYork))
          (Cos RefMath.lib (U_of RefMath.lib NewYork))
          (L_of Boston NewYork))
  = 0.046797432872274912.
Proof. vm_compute. reflexivity. Qed.

(** ** The bulk test *)

Lemma binary_normalize_nonpos z e :
  (z <= 0)%Z -> SFnonpos (binary_normalize prec emax z e false).
Proof.
  destruct z as [| p | p]; intros H; simpl.
  - exact I.
  - lia.
  - apply SFsigned_nonpos, binary_round_signed.
Qed.

Lemma digits2_pos_lower (m : positive) :
  (2 ^ (Z.pos (digits2_pos m) - 1) <= Z.pos m)%Z.
Proof.
  induction m as [m IH | m IH |]; simpl digits2_pos.
  - rewrite Pos2Z.inj_succ.
    replace (Z.succ (Z.pos (digits2_pos m)) - 1)%Z
      with (Z.succ (Z.pos (digits2_pos m) - 1))%Z by lia.
    rewrite Z.pow_succ_r by lia. lia.
  - rewrite Pos2Z.inj_succ.
    replace (Z.succ (Z.pos (digits2_pos m)) - 1)%Z
      with (Z.succ (Z.pos (digits2_pos m) - 1))%Z by lia.
    rewrite Z.pow_succ_r by lia. lia.
  - simpl. lia.
Qed.

Lemma iter_xO (d m : positive) :
  Z.pos (Pos.iter xO m d) = (Z.pos m * 2 ^ Z.pos d)%Z.
Proof.
  change (Pos.iter xO m d) with (shift_pos d m).
  rewrite shift_pos_correct, Zpower_pos_nat, Zpower_nat_Z, positive_nat_Z. lia.
Qed.

(** Of two canonical mantissas, the one with the smaller exponent is the
    smaller number. *)
Lemma canonical_lt (m1 m2 : positive) (e1 e2 : Z) :
  canonical_mantissa prec emax m1 e1 = true ->
  canonical_mantissa prec emax m2 e2 = true ->
  (e1 < e2)%Z ->
  (Z.pos (fst (shl_align m1 e1 (Z.min e1 e2)))
   < Z.pos (fst (shl_align m2 e2 (Z.min e1 e2))))%Z.
Proof.
  unfold canonical_mantissa, fexp. intros H1 H2 Hlt.
  apply Z.eqb_eq in H1, H2.
  change (SpecFloat.emin prec emax) with (-1074)%Z in *.
  change prec with 53%Z in *.
  rewrite Z.min_l by lia.
  unfold shl_align. rewrite Z.sub_diag.
  destruct (e1 - e2)%Z as [| p | d] eqn:Ed; try lia.
  cbn [fst]. rewrite iter_xO.
  pose proof (digits2_pos_bound m1) as B1.
  pose proof (digits2_pos_lower m2) as B2.
  assert (D1 : (Z.pos (digits2_pos m1) <= 53)%Z) by lia.
  assert (D2 : (Z.pos (digits2_pos m2) = 53)%Z) by lia.
  rewrite D2 in B2. change (2 ^ (53 - 1))%Z with 4503599627370496%Z in B2.
  assert (B1' : (Z.pos m1 < 2 ^ 53)%Z).
  { eapply Z.lt_le_trans; [exact B1 |]. apply Z.pow_le_mono_r; lia. }
  change (2 ^ 53)%Z with 9007199254740992%Z in B1'.
  assert (P : (2 <= 2 ^ Z.pos d)%Z).
  { change 2%Z with (2 ^ 1)%Z at 1. apply Z.pow_le_mono_r; lia. }
  nia.
Qed.

Lemma shl_align_same (m : positive) (e : Z) : shl_align m e e = (m, e).
Proof. unfold shl_align. rewrite Z.sub_diag. reflexivity. Qed.

(** [x - y] for [x <= y] is zero, negative or NaN. *)
Lemma SFsub_nonpos (x y : spec_float) :
  SpecFloat.valid_binary prec emax x = true ->
  SpecFloat.valid_binary prec emax y = true ->
  SFleb x y = true -> SFnonpos (SFsub prec emax x y).
Proof.
  unfold SFleb.
  destruct x as [sx | sx | | sx mx ex], y as [sy | sy | | sy my ey];
    intros Vx Vy H; simpl in H; try discriminate; simpl; try exact I;
    try (destruct sx; try destruct sy;
         (discriminate || exact I || reflexivity)).
  apply binary_normalize_nonpos.
  simpl in Vx, Vy. unfold bounded in Vx, Vy.
  apply andb_true_iff in Vx, Vy. destruct Vx as [Cx _], Vy as [Cy _].
  destruct sx, sy; simpl cond_Zopp; try discriminate.
  - destruct (ex ?= ey)%Z eqn:Ec.
    + apply Z.compare_eq in Ec. subst ey.
      rewrite Z.min_id, !shl_align_same. cbn [fst].
      change (Pos.compare_cont Eq mx my) with (mx ?= my)%positive in H.
      destruct (mx ?= my)%positive eqn:Em; simpl in H; try discriminate.
      * apply Pos.compare_eq in Em. subst. lia.
      * apply Pos.compare_gt_iff in Em. lia.
    + discriminate.
    + apply Z.compare_gt_iff in Ec.
      pose proof (canonical_lt my mx ey ex Cy Cx Ec) as Hlt.
      rewrite (Z.min_comm ey ex) in Hlt. lia.
  - destruct (ex ?= ey)%Z eqn:Ec.
    + apply Z.compare_eq in Ec. subst ey.
      rewrite Z.min_id, !shl_align_same. cbn [fst].
      change (Pos.compare_cont Eq mx my) with (mx ?= my)%positive in H.
      destruct (mx ?= my)%positive eqn:Em; simpl in H; try discriminate.
      * apply Pos.compare_eq in Em. subst. lia.
      * pose proof (proj1 (Pos.compare_lt_iff mx my) Em). lia.
    + apply Z.compare_lt_iff in Ec.
      pose proof (canonical_lt mx my ex ey Cx Cy Ec) as Hlt. lia.
    + discriminate.
Qed.

(** A difference [x - y] with [x <= y] is not above a positive number. *)
Lemma sub_le_not_above (x y c : float) (m : positive) (e : Z) :
  Prim2SF c = S754_finite false m e ->
  (x <=? y) = true -> (c <? x - y) = false.
Proof.
  intros Hc H. rewrite leb_spec in H. rewrite ltb_spec, sub_spec, Hc.
  pose proof (SFsub_nonpos _ _ (Prim2SF_valid x) (Prim2SF_valid y) H) as Hn.
  unfold SF64sub.
  destruct (SFsub prec emax (Prim2SF x) (Prim2SF y)) as [s | s | | s m' e'];
    simpl in Hn; subst; reflexivity.
Qed.

(** X12. The check of [TestSpeed] is one-sided: when every row has its
    five fields and the distance computed is at or below the expected one,
    however far below, no error is reported and nothing panics.  A row on
    which [Inverse] fails with the sentinel [-1.0] passes against any expected
    distance from [-1] up. *)
Theorem TestSpeed_one_sided (M : MathLib) (testData : list (list float)) :
  Forall (not_above M) testData ->
  TestSpeed_rows M testData = ([], false).
Proof.
  induction 1 as [| data rest Hrow _ IH]; [reflexivity |].
  destruct Hrow as (d0 & d1 & d2 & d3 & d4 & tl & -> & Hle).
  cbn [TestSpeed_rows]. unfold TestSpeed_row. cbn [nth_error]. cbv zeta.
  unfold Metres.
  rewrite (sub_le_not_above _ _ 0.0011 _ _ eq_refl Hle). exact IH.
Qed.

Lemma TestSpeed_one_sided_witness :
  Forall (not_above RefMath.lib)
         [[0; 0; 0.5; 179.7; 19944127.421]; [0; 0; 0; 1; 200000]]
  /\ TestSpeed_rows RefMath.lib
       [[0; 0; 0.5; 179.7; 19944127.421]; [0; 0; 0; 1; 200000]] = ([], false).
Proof.
  assert (H : Forall (not_above RefMath.lib)
                [[0; 0; 0.5; 179.7; 19944127.421]; [0; 0; 0; 1; 200000]]).
  { repeat constructor.
    - exists 0, 0, 0.5, 179.7, 19944127.421, []. split; [reflexivity |].
      vm_compute. reflexivity.
    - exists 0, 0, 0, 1, 200000, []. split; [reflexivity |].
      vm_compute. reflexivity. }
  split; [exact H |].
  apply (TestSpeed_one_sided RefMath.lib _ H).
Defined.

(** In the other direction the tolerance is 1.1 mm. *)
Example TestSpeed_reports_above :
  TestSpeed_rows RefMath.lib [[0; 0; 0; 1; 111319.489]]
  = ([(111319.491, 111319.489)], false).
Proof. vm_compute. reflexivity. Qed.

Lemma TestSpeed_row_short (M : MathLib) (data : list float) :
  (length data < 5)%nat -> TestSpeed_row M data = Panic.
Proof.
  intros H. unfold TestSpeed_row.
  destruct data as [| d0 [| d1 [| d2 [| d3 [| d4 tl]]]]]; simpl in H;
    try reflexivity; lia.
Qed.



Lemma eqb_leb x y : (x =? y) = true -> (x <=? y) = true.
Proof.
  rewrite FloatAxioms.eqb_spec, leb_spec. unfold SFeqb, SFleb.
  destruct (SFcompare (Prim2SF x) (Prim2SF y)) as [[| |] |];
    intros H; try discriminate; reflexivity.
Qed.

(** X14. The check of [TestSpeed] is weaker than the one of
    [verifyInverse]: a scenario that [verifyInverse] accepts ([Inverse]
    returns the expected [float64], compared with [!=]) passes as a row of
    the bulk test, whatever follows its five fields. *)
Theorem verifyInverse_TestSpeed (M : MathLib) (d0 d1 d2 d3 d4 : float)
    (rest : list float) :
  verifyInverse M (mkLatLng d0 d1) (mkLatLng d2 d3) d4 = None ->
  TestSpeed_row M (d0 :: d1 :: d2 :: d3 :: d4 :: rest) = Passed.
Proof.
  unfold verifyInverse, TestSpeed_row, neqb, Metres. cbn [nth_error]. cbv zeta.
  destruct (Inverse M (mkLatLng d0 d1) (mkLatLng d2 d3) =? d4) eqn:E;
    [| discriminate].
  intros _.
  rewrite (sub_le_not_above _ _ 0.0011 _ _ eq_refl (eqb_leb _ _ E)).
  reflexivity.
Qed.

Lemma verifyInverse_TestSpeed_witness :
  verifyInverse RefMath.lib (mkLatLng 0 0) (mkLatLng 0.5 179.5) 19936288.579
  = None
  /\ TestSpeed_row RefMath.lib [0; 0; 0.5; 179.5; 19936288.579] = Passed.
Proof.
  assert (H : verifyInverse RefMath.lib (mkLatLng 0 0) (mkLatLng 0.5 179.5)
                19936288.579 = None) by (vm_compute; reflexivity).
  split; [exact H |].
  apply (verifyInverse_TestSpeed RefMath.lib 0 0 0.5 179.5 19936288.579 []).
  exact H.
Defined.

(** The six scenarios of the test file, run through [verifyInverse]. *)
Example tests_pass :
  verifyInverse RefMath.lib (pt 0 0) (pt 0 0) 0.0 = None
  /\ verifyInverse RefMath.lib (pt 0 0) (pt 0 1) 111319.491 = None
  /\ verifyInverse RefMath.lib (pt 0 0) (pt 1 0) 110574.389 = None
  /\ verifyInverse RefMath.lib (pt 0 0) (pt 0.5 179.5) 19936288.579 = None
  /\ verifyInverse RefMath.lib (pt 0 0) (pt 0.5 179.7) (-1.0) = None
  /\ verifyInverse RefMath.lib Boston NewYork 298396.057 = None.
Proof. repeat split; vm_compute; reflexivity. Qed.
